(** * Neural spike train analysis

    A shallow embedding of [scripts/spike_train_analysis.py]: the Poisson
    spike generator, the binned firing-rate estimator, the inter-spike
    interval (ISI) statistics, the summary report with its firing-pattern
    interpretation, and the data path of the figure.

    Numbers.  Timestamps, rates and durations are Python/NumPy floats in the
    script; they are modelled by exact rationals [Q].  Comparisons and the
    control flow of the script are exact in both; arithmetic is rounded in
    the script and exact here.  The properties below are therefore stated
    so that they do not depend on the rounding: on counts, lengths, signs
    and comparisons, on bin edges taken as they come out of [np.arange],
    and with bounds that are doubles themselves.  Results that are only
    determined up to the representation of a rational are stated with [==]
    ([Qeq]).

    NumPy.  The library calls of the script are modelled from NumPy's
    documented behaviour: [np.sort], [np.diff], [np.mean], [np.std],
    [np.arange] and [np.histogram] as executable functions, the square root
    as a parameter, and the legacy global random generator
    ([np.random.seed], [np.random.poisson], [np.random.uniform]) as a state
    monad over an abstract bit generator. *)

From Stdlib Require Import String.
From Stdlib Require Import QArith Qround ZArith List Bool Lia Lqa.
From Stdlib Require Import Sorting.Mergesort Sorting.Sorted Sorting.Permutation Orders.
Import ListNotations.

Open Scope Q_scope.

(** ** Python numbers *)

(** [int(x)] on a float: truncation toward zero. *)
Definition py_int (x : Q) : Z := Z.quot (Qnum x) (Zpos (Qden x)).

(** Strict comparison [x < y] as a boolean. *)
Definition Qltb (x y : Q) : bool :=
  match x ?= y with Lt => true | _ => false end.

(** ** Exceptions and the two effects of the script *)

Inductive exn : Type :=
| ValueError
| ZeroDivisionError.

Inductive result (A : Type) : Type :=
| Ok (a : A)
| Raise (e : exn).
Arguments Ok {A} a.
Arguments Raise {A} e.

Definition is_raise {A} (r : result A) : bool :=
  match r with Ok _ => false | Raise _ => true end.

(** A computation over the process-wide generator state [S]: it returns
    a value or raises, and in both cases leaves a state behind (an
    exception does not undo what was already written to the state). *)
Definition rand (S A : Type) : Type := S -> result A * S.

Class Monad (m : Type -> Type) : Type := {
  ret : forall {A}, A -> m A;
  bind : forall {A B}, m A -> (A -> m B) -> m B
}.

Notation "x <- c ;; k" := (bind c (fun x => k))
  (at level 61, c at next level, right associativity).

#[export] Instance result_monad : Monad result := {
  ret := fun A a => Ok a;
  bind := fun A B c k => match c with Ok a => k a | Raise e => Raise e end
}.

#[export] Instance rand_monad (S : Type) : Monad (rand S) := {
  ret := fun A a s => (Ok a, s);
  bind := fun A B c k s =>
    match c s with
    | (Ok a, s') => k a s'
    | (Raise e, s') => (Raise e, s')
    end
}.

(** ** NumPy array functions on lists *)

(** [a[1:]] paired with [a[:-1]]: every element with its predecessor. *)
Definition with_previous {A} (a : list A) : list (A * A) :=
  combine (tl a) (removelast a).

(** [np.diff(a)] is [a[1:] - a[:-1]]. *)
Definition np_diff (a : list Q) : list Q :=
  map (fun p => fst p - snd p) (with_previous a).

Definition np_diff_int (a : list Z) : list Z :=
  map (fun p => (fst p - snd p)%Z) (with_previous a).

Definition Qsum (a : list Q) : Q := fold_right Qplus 0 a.

Definition Zsum (a : list Z) : Z := fold_right Z.add 0%Z a.

Definition len (a : list Q) : Q := inject_Z (Z.of_nat (length a)).

(** [np.mean(a)]. *)
Definition np_mean (a : list Q) : Q := Qsum a / len a.

(** [np.sort(a)]: ascending order. *)
Module QOrder <: TotalLeBool.
Definition t := Q.
Definition leb := Qle_bool.
Theorem leb_total : forall x y, leb x y = true \/ leb y x = true.
Proof.
  intros x y. unfold leb. rewrite !Qle_bool_iff.
  destruct (Qlt_le_dec x y) as [H | H]; [left; apply Qlt_le_weak | right]; exact H.
Qed.
End QOrder.

Module QSort := Sort QOrder.

Definition np_sort (a : list Q) : list Q := QSort.sort a.

(** [np.arange(start, stop, step)]: [ceil((stop - start) / step)] values
    [start + i * step]; none when that length is not positive.  A zero step
    raises, the length being a division by the step: [ZeroDivisionError]
    when the bounds are Python numbers, [ValueError] or [OverflowError] when
    they are NumPy scalars.  The model reports all of these as
    [ZeroDivisionError]; no statement below depends on the kind. *)
Definition arange_length (start stop step : Q) : nat :=
  Z.to_nat (Qceiling ((stop - start) / step)).

Definition arange_values (start step : Q) (n : nat) : list Q :=
  map (fun i => start + inject_Z (Z.of_nat i) * step) (seq 0 n).

Definition np_arange (start stop step : Q) : result (list Q) :=
  if Qeq_bool step 0 then Raise ZeroDivisionError
  else Ok (arange_values start step (arange_length start stop step)).

(** [np.histogram(a, bins=edges)] with an array of bin edges.  The edges
    must not decrease.  NumPy counts through the cumulative histogram: for
    each edge but the last the number of samples strictly below it
    ([searchsorted] on the sorted samples, side [left]), for the last edge
    the number of samples not above it (side [right]); the counts are the
    differences of consecutive cumulative values.  So every bin is
    left-inclusive and right-exclusive, except the last, which includes its
    right edge; [k] edges give [k - 1] bins, and fewer than two edges give
    none. *)
Definition count_lt (a : list Q) (v : Q) : Z :=
  Z.of_nat (length (filter (fun x => Qltb x v) a)).

Definition count_le (a : list Q) (v : Q) : Z :=
  Z.of_nat (length (filter (fun x => Qle_bool x v) a)).

(** [v[-1:]] *)
Definition last_slice {A} (v : list A) : list A :=
  match v with
  | [] => []
  | x :: v' => [last v' x]
  end.

Definition search_sorted_inclusive (a v : list Q) : list Z :=
  map (count_lt a) (removelast v) ++ map (count_le a) (last_slice v).

(** [np.any(edges[:-1] > edges[1:])] *)
Definition decreases (edges : list Q) : bool :=
  existsb (fun p => Qltb (fst p) (snd p)) (with_previous edges).

Definition np_histogram (a edges : list Q) : result (list Z) :=
  if decreases edges then Raise ValueError
  else Ok (np_diff_int (search_sorted_inclusive a edges)).

(** ** The legacy global random generator *)

(** The bit generator behind [np.random]: how a seed initialises the state,
    and the draws the script uses.  [poisson_draw lam] is one Poisson
    variate of mean [lam > 0]; [random_sample] is one uniform variate on
    the unit interval. *)
Class BitGenerator : Type := {
  rng_state : Type;
  seed_state : Z -> rng_state;
  poisson_draw : Z -> rng_state -> nat * rng_state;
  random_sample : rng_state -> Q * rng_state
}.

(** Largest mean [np.random.poisson] accepts,
    [np.iinfo('int64').max - np.sqrt(np.iinfo('int64').max) * 10] as a
    double. *)
Definition POISSON_LAM_MAX : Z := 9223372006484770816.

(** [np.random.seed] accepts the integers [0 .. 2**32 - 1]. *)
Definition valid_seed (seed : Z) : bool :=
  ((0 <=? seed) && (seed <=? 2 ^ 32 - 1))%Z.

Section NumPyRandom.
Context {G : BitGenerator}.

(** [np.random.seed(seed)]: replaces the global state, whatever it was;
    a seed out of range raises and leaves the state alone. *)
Definition np_random_seed (seed : Z) : rand rng_state unit :=
  fun g =>
    if valid_seed seed then (Ok tt, seed_state seed)
    else (Raise ValueError, g).

(** [np.random.poisson(lam)]: the mean is checked first; a mean of zero
    gives zero without consuming the generator. *)
Definition np_random_poisson (lam : Z) : rand rng_state nat :=
  fun g =>
    if (lam <? 0)%Z then (Raise ValueError, g)
    else if (POISSON_LAM_MAX <? lam)%Z then (Raise ValueError, g)
    else if (lam =? 0)%Z then (Ok 0%nat, g)
    else let (n, g') := poisson_draw lam g in (Ok n, g').

(** [np.random.uniform(low, high, size)]: [size] successive samples
    [low + (high - low) * u]. *)
Fixpoint np_random_uniform (low high : Q) (size : nat) : rand rng_state (list Q) :=
  match size with
  | O => ret []
  | S size' =>
      fun g =>
        let (u, g') := random_sample g in
        (xs <- np_random_uniform low high size' ;;
         ret ((low + (high - low) * u) :: xs)) g'
  end.
End NumPyRandom.

(** ** Spike generator *)

(** The mean handed to the Poisson draw (line 41 of the script). *)
Definition expected_spikes (rate duration : Q) : Z :=
  py_int (rate * duration / 1000).

Section Generator.
Context {G : BitGenerator}.

Definition generate_spike_train (rate duration : Q) (seed : Z)
  : rand rng_state (list Q) :=
  _ <- np_random_seed seed ;;
  num_spikes <- np_random_poisson (expected_spikes rate duration) ;;
  spike_times <- np_random_uniform 0 duration num_spikes ;;
  ret (np_sort spike_times).
End Generator.

(** ** Rate estimator *)

(** [spike_times[-1] if len(spike_times) > 0 else 1000] *)
Definition default_duration (spike_times : list Q) : Q :=
  match spike_times with
  | [] => 1000
  | t :: rest => last rest t
  end.

(** The window after lines 76-77: the argument, or the default when it is
    [None]. *)
Definition effective_duration (spike_times : list Q) (duration : option Q) : Q :=
  match duration with
  | None => default_duration spike_times
  | Some d => d
  end.

Definition calculate_firing_rate (spike_times : list Q) (bin_size : Q)
    (duration : option Q) : result (list Q * list Q) :=
  let duration := effective_duration spike_times duration in
  bins <- np_arange 0 (duration + bin_size) bin_size ;;
  counts <- np_histogram spike_times bins ;;
  let firing_rates := map (fun c => inject_Z c / (bin_size / 1000)) counts in
  let bin_centers := map (fun e => e + bin_size / 2) (removelast bins) in
  ret (bin_centers, firing_rates).

(** The two conversions of lines 86 and 89, by name. *)
Definition count_rate (bin_size : Q) (c : Z) : Q := inject_Z c / (bin_size / 1000).

Definition bin_center (bin_size e : Q) : Q := e + bin_size / 2.

(** Lines 83-91 on their own: the result for the bin edges [bins] that
    line 80 produced. *)
Definition rates_from_bins (spike_times : list Q) (bin_size : Q)
    (bins : list Q) : result (list Q * list Q) :=
  counts <- np_histogram spike_times bins ;;
  let firing_rates := map (fun c => inject_Z c / (bin_size / 1000)) counts in
  let bin_centers := map (fun e => e + bin_size / 2) (removelast bins) in
  ret (bin_centers, firing_rates).

(** The per-bin counts on their own (lines 80-83). *)
Definition bin_counts (spike_times : list Q) (bin_size duration : Q)
    : result (list Z) :=
  bins <- np_arange 0 (duration + bin_size) bin_size ;;
  np_histogram spike_times bins.

(** ** ISI analyzer *)

(** The value of a float division: a finite number, or one of the special
    values that a zero divisor produces on NumPy floats (with a warning,
    not an exception). *)
Inductive float64 : Type :=
| Finite (q : Q)
| Infinite (negative : bool)
| NaN.

Definition np_true_divide (x y : Q) : float64 :=
  if Qeq_bool y 0 then
    if Qeq_bool x 0 then NaN else Infinite (Qltb x 0)
  else Finite (x / y).

(** [x < c] for a finite constant [c]; every comparison with NaN is
    false. *)
Definition float_lt (x : float64) (c : Q) : bool :=
  match x with
  | Finite q => Qltb q c
  | Infinite negative => negative
  | NaN => false
  end.

Record ISIStatistics : Type := {
  mean_isi : Q;
  std_isi : Q;
  cv : float64;
  num_intervals : nat
}.

(** The record of a train without intervals. *)
Definition zero_statistics : ISIStatistics :=
  {| mean_isi := 0; std_isi := 0; cv := Finite 0; num_intervals := 0 |}.

Section ISI.
(** [np.sqrt]; the rationals do not have it, and no property of it is
    needed below. *)
Variable np_sqrt : Q -> Q.

(** [np.std(a)]: population standard deviation. *)
Definition np_std (a : list Q) : Q :=
  let m := np_mean a in
  np_sqrt (np_mean (map (fun x => (x - m) * (x - m)) a)).

Definition calculate_isi_statistics (spike_times : list Q) : ISIStatistics :=
  let isis := np_diff spike_times in
  if (length isis =? 0)%nat then
    {| mean_isi := 0; std_isi := 0; cv := Finite 0; num_intervals := 0 |}
  else
    let mean_isi := np_mean isis in
    let std_isi := np_std isis in
    let cv :=
      if Qltb 0 mean_isi then np_true_divide std_isi mean_isi
      else Finite 0 in
    {| mean_isi := mean_isi; std_isi := std_isi; cv := cv;
       num_intervals := length isis |}.
End ISI.

(** ** Firing-pattern interpretation of the summary *)

Inductive firing_pattern : Type :=
| Regular
| PoissonLike
| Bursty.

(** The branch taken on [stats['cv']] (lines 264-269). *)
Definition classify_cv (cv : float64) : firing_pattern :=
  if float_lt cv 0.5 then Regular
  else if float_lt cv 1.5 then PoissonLike
  else Bursty.

(** The text assigned to [pattern] in each branch. *)
Definition pattern_text (p : firing_pattern) : string :=
  match p with
  | Regular => "Regular/rhythmic firing"
  | PoissonLike => "Poisson-like (irregular) firing"
  | Bursty => "Bursty/highly variable firing"
  end.

Definition interpret_cv (cv : float64) : string := pattern_text (classify_cv cv).

(** The pattern that [print_summary_statistics] reports for a train. *)
Definition print_summary_statistics_pattern (np_sqrt : Q -> Q)
    (spike_times : list Q) : string :=
  interpret_cv (cv (calculate_isi_statistics np_sqrt spike_times)).

(** ** Concrete instances, for running the model *)

(** A linear congruential bit generator.  It stands in for NumPy's Mersenne
    Twister where an executable instance is wanted; no statement below
    depends on its particular draws. *)
Module Lcg.
Definition modulus : Z := 2 ^ 31.

Definition next (s : Z) : Z := ((1103515245 * s + 12345) mod modulus)%Z.

Definition poisson (lam s : Z) : nat * Z :=
  let s' := next s in
  (Z.to_nat (s' mod (2 * lam + 1))%Z, s').

Definition sample (s : Z) : Q * Z :=
  let s' := next s in
  (Qmake (s' mod 1000) 1000, s').

#[export] Instance generator : BitGenerator := {
  rng_state := Z;
  seed_state := fun seed => seed;
  poisson_draw := poisson;
  random_sample := sample
}.
End Lcg.

(** A rational square root, rounded down on the numerator: of [n / d] it
    gives [floor (sqrt (n * d)) / d]. *)
Definition floor_sqrt (x : Q) : Q :=
  Qmake (Z.sqrt (Qnum x * Zpos (Qden x))) (Qden x).

(** ** The summary report *)

(** What [print_summary_statistics] computes and prints, in the order of
    the report; the formatting of the lines is left out.  The train is a
    NumPy array, so the duration of a non-empty train is a NumPy float and
    the division for the mean rate follows NumPy (a zero divisor gives an
    infinity or NaN with a warning). *)
Record Summary : Type := {
  summary_duration : Q;
  summary_num_spikes : nat;
  summary_mean_rate : float64;
  summary_stats : ISIStatistics;
  summary_pattern : string
}.

Definition print_summary_statistics (np_sqrt : Q -> Q)
    (spike_times : list Q) : Summary :=
  let duration :=
    match spike_times with
    | [] => 1
    | t :: rest => last rest t / 1000
    end in
  let num_spikes := length spike_times in
  let mean_rate := np_true_divide (inject_Z (Z.of_nat num_spikes)) duration in
  let stats := calculate_isi_statistics np_sqrt spike_times in
  {| summary_duration := duration;
     summary_num_spikes := num_spikes;
     summary_mean_rate := mean_rate;
     summary_stats := stats;
     summary_pattern := interpret_cv (cv stats) |}.

(** ** The figure *)

(** [np.mean] as a float: NaN for an empty array. *)
Definition np_mean_float (a : list Q) : float64 :=
  np_true_divide (Qsum a) (len a).

(** Built-in [max(a, b)]: the first argument unless the second is
    greater. *)
Definition py_max (a b : Q) : Q := if Qltb a b then b else a.

(** The data [plot_spike_analysis] hands to the three panels: the raster
    points and the right end of their axis, the rate curve with the level of
    its mean line, the ISI histogram with its mean line (only when there is
    an interval), and the statistics of the text box. *)
Record SpikePlot : Type := {
  raster_times : list Q;
  raster_xlim : Q;
  rate_curve : list Q * list Q;
  rate_mean_line : float64;
  isi_histogram : option (list Q * Q);
  stats_box : ISIStatistics
}.

Inductive plot_exn : Type :=
| IndexError
| EstimatorError (e : exn).

Inductive plot_outcome : Type :=
| Plotted (p : SpikePlot)
| PlotRaise (e : plot_exn).

(** The data path of [plot_spike_analysis]; the drawing calls themselves
    and the writing of the file are taken not to fail.  [spike_times[-1]]
    on line 167 raises [IndexError] on an empty array. *)
Definition plot_spike_analysis (np_sqrt : Q -> Q) (spike_times : list Q)
    : plot_outcome :=
  match spike_times with
  | [] => PlotRaise IndexError
  | t :: rest =>
      let xlim := py_max (last rest t) 1000 in
      match calculate_firing_rate spike_times 50 None with
      | Raise e => PlotRaise (EstimatorError e)
      | Ok (times, rates) =>
          let isis := np_diff spike_times in
          let histogram :=
            if (0 <? length isis)%nat then Some (isis, np_mean isis)
            else None in
          Plotted {| raster_times := spike_times;
                     raster_xlim := xlim;
                     rate_curve := (times, rates);
                     rate_mean_line := np_mean_float rates;
                     isi_histogram := histogram;
                     stats_box := calculate_isi_statistics np_sqrt spike_times |}
      end
  end.

(** ** Notions used to state the properties *)

(** The [i]-th bin edge of the estimator. *)
Definition bin_edge (bin_size : Q) (i : nat) : Q :=
  inject_Z (Z.of_nat i) * bin_size.

(** The number of samples [t] with [lo <= t < hi]. *)
Definition count_half_open (a : list Q) (lo hi : Q) : Z :=
  Z.of_nat (length (filter (fun t => Qle_bool lo t && Qltb t hi) a)).

(** The number of samples [t] with [lo <= t <= hi]. *)
Definition count_closed (a : list Q) (lo hi : Q) : Z :=
  Z.of_nat (length (filter (fun t => Qle_bool lo t && Qle_bool t hi) a)).

(** The largest double below 1000: a product that is at most this value
    is below 1000 also after rounding, and its thousandth is below 1. *)
Definition below_1000 : Q := 1000 - (1 # 2 ^ 43).

(** The number of bins of the estimator on a window [d]. *)
Definition bin_number (bin_size d : Q) : nat :=
  Z.to_nat (Qceiling (d / bin_size)).

(** The cumulative counts at the edges [f 0 .. f k]: strictly below every
    edge but the last, up to and including the last. *)
Definition cumulative (a : list Q) (f : nat -> Q) (k i : nat) : Z :=
  if (i <? k)%nat then count_lt a (f i) else count_le a (f i).

(** The edges of the estimator as [np.arange] computes them, by index, and
    the counts as differences of the cumulative counts at these edges. *)
Definition estimator_edge (bin_size : Q) (i : nat) : Q :=
  0 + inject_Z (Z.of_nat i) * bin_size.

Definition estimator_counts (a : list Q) (bin_size : Q) (k : nat) : list Z :=
  map (fun i => (cumulative a (estimator_edge bin_size) k (S i)
                 - cumulative a (estimator_edge bin_size) k i)%Z)
      (seq 0 k).

(** The unit-interval contract of the uniform variate. *)
Definition unit_samples {G : BitGenerator} : Prop :=
  forall g : rng_state, 0 <= fst (random_sample g) < 1.

(** * Properties *)

(** ** Comparisons *)

Lemma Qltb_lt (x y : Q) : Qltb x y = true <-> x < y.
Proof.
  unfold Qltb. rewrite Qlt_alt. destruct (x ?= y); split; congruence.
Qed.

Lemma Qltb_ge (x y : Q) : Qltb x y = false <-> y <= x.
Proof.
  unfold Qltb. rewrite Qge_alt. destruct (x ?= y); split; congruence.
Qed.

(** ** Slices and differences *)

Lemma with_previous_cons {A} (x y : A) (l : list A) :
  with_previous (x :: y :: l) = (y, x) :: with_previous (y :: l).
Proof. reflexivity. Qed.

Lemma with_previous_length {A} (a : list A) :
  length (with_previous a) = pred (length a).
Proof.
  induction a as [| x [| y l] IH]; try reflexivity.
  rewrite with_previous_cons. simpl length at 1. rewrite IH. reflexivity.
Qed.

Lemma np_diff_length (a : list Q) : length (np_diff a) = pred (length a).
Proof. unfold np_diff. rewrite length_map. apply with_previous_length. Qed.

Lemma np_diff_int_length (a : list Z) : length (np_diff_int a) = pred (length a).
Proof. unfold np_diff_int. rewrite length_map. apply with_previous_length. Qed.

(** The number of intervals is [max(0, len(train) - 1)]; there is none
    exactly for the trains of at most one spike. *)
Lemma no_interval_iff (spike_times : list Q) :
  length (np_diff spike_times) = 0%nat <-> (length spike_times <= 1)%nat.
Proof. rewrite np_diff_length. lia. Qed.

Section ISIFacts.
Variable np_sqrt : Q -> Q.

(** X6. The analyzer reports one interval less than the train has spikes,
    and none for the empty train. *)
Lemma num_intervals_spec (spike_times : list Q) :
  num_intervals (calculate_isi_statistics np_sqrt spike_times)
  = pred (length spike_times).
Proof.
  unfold calculate_isi_statistics.
  destruct (Nat.eqb_spec (length (np_diff spike_times)) 0) as [E | E]; simpl.
  - rewrite np_diff_length in E. lia.
  - apply np_diff_length.
Qed.

(** C3. A train of zero or one spikes has no interval, and the analyzer
    returns the record with mean, standard deviation and coefficient of
    variation all 0 and [num_intervals = 0]; so it does for the empty
    train and for the single spike at 5.0 ms. *)
Theorem isi_zero_contract :
  (forall spike_times : list Q,
      (length spike_times <= 1)%nat ->
      calculate_isi_statistics np_sqrt spike_times = zero_statistics)
  /\ calculate_isi_statistics np_sqrt [] = zero_statistics
  /\ calculate_isi_statistics np_sqrt [5.0] = zero_statistics.
Proof.
  assert (H : forall spike_times : list Q,
             (length spike_times <= 1)%nat ->
             calculate_isi_statistics np_sqrt spike_times = zero_statistics).
  { intros spike_times Hlen. apply no_interval_iff in Hlen.
    unfold calculate_isi_statistics. rewrite Hlen. reflexivity. }
  split; [exact H |].
  split; apply H; simpl; lia.
Qed.

(** C5. For a train of at least two spikes whose intervals have mean 0,
    the analyzer returns [cv = 0]: the division is not performed, so the
    value is the finite number 0 and not NaN or an infinity. *)
Theorem cv_zero_division_guard (spike_times : list Q) :
  (2 <= length spike_times)%nat ->
  np_mean (np_diff spike_times) == 0 ->
  cv (calculate_isi_statistics np_sqrt spike_times) = Finite 0.
Proof.
  intros Hlen Hmean. unfold calculate_isi_statistics.
  destruct (Nat.eqb_spec (length (np_diff spike_times)) 0) as [E | E].
  - rewrite np_diff_length in E. lia.
  - simpl. replace (Qltb 0 (np_mean (np_diff spike_times))) with false.
    + reflexivity.
    + symmetry. apply Qltb_ge. rewrite Hmean. apply Qle_refl.
Qed.
End ISIFacts.

Lemma isi_zero_contract_witness :
  calculate_isi_statistics floor_sqrt [5.0] = zero_statistics.
Proof.
  apply (proj1 (isi_zero_contract floor_sqrt) [5.0]). simpl. lia.
Defined.

Lemma cv_zero_division_guard_witness :
  cv (calculate_isi_statistics floor_sqrt [3; 3; 3]) = Finite 0.
Proof.
  apply (cv_zero_division_guard floor_sqrt [3; 3; 3]).
  - simpl. lia.
  - reflexivity.
Defined.

(** ** Classification *)

(** C4. The interpretation of a (finite) CV value: below 0.5 the regular
    pattern, from 0.5 and below 1.5 the Poisson-like pattern, from 1.5 on
    the bursty pattern; 0.5 itself is Poisson-like and 1.5 itself is
    bursty. *)
Theorem classification_boundaries (c : Q) :
  (c < 0.5 -> interpret_cv (Finite c) = "Regular/rhythmic firing"%string)
  /\ (0.5 <= c -> c < 1.5 ->
      interpret_cv (Finite c) = "Poisson-like (irregular) firing"%string)
  /\ (1.5 <= c -> interpret_cv (Finite c) = "Bursty/highly variable firing"%string)
  /\ interpret_cv (Finite 0.5) = "Poisson-like (irregular) firing"%string
  /\ interpret_cv (Finite 1.5) = "Bursty/highly variable firing"%string.
Proof.
  unfold interpret_cv, classify_cv, float_lt.
  repeat split.
  - intros H. apply Qltb_lt in H. now rewrite H.
  - intros H1 H2. apply Qltb_ge in H1. apply Qltb_lt in H2.
    now rewrite H1, H2.
  - intros H. assert (H' : 0.5 <= c).
    { apply Qle_trans with 1.5; [discriminate | exact H]. }
    apply Qltb_ge in H, H'. now rewrite H, H'.
Qed.

Lemma classification_boundaries_witness :
  interpret_cv (Finite 0.49) = "Regular/rhythmic firing"%string
  /\ interpret_cv (Finite 1.49) = "Poisson-like (irregular) firing"%string
  /\ interpret_cv (Finite 2) = "Bursty/highly variable firing"%string.
Proof.
  split; [| split].
  - apply (proj1 (classification_boundaries 0.49)). reflexivity.
  - apply (proj1 (proj2 (classification_boundaries 1.49))).
    + discriminate.
    + reflexivity.
  - apply (proj1 (proj2 (proj2 (classification_boundaries 2)))). discriminate.
Defined.

(** ** Truncation of the expected count *)

Lemma py_int_floor (x : Q) : 0 <= x -> py_int x = Qfloor x.
Proof.
  intros Hx. destruct x as [n d]. unfold py_int, Qfloor. simpl.
  apply Z.quot_div_nonneg; [| reflexivity].
  unfold Qle in Hx. simpl in Hx. lia.
Qed.

Lemma expected_count_nonneg (rate duration : Q) :
  0 <= rate -> 0 < duration -> 0 <= rate * duration / 1000.
Proof.
  intros Hr Hd. apply Qle_shift_div_l; [reflexivity |].
  rewrite Qmult_0_l. apply Qmult_le_0_compat; [exact Hr |].
  apply Qlt_le_weak. exact Hd.
Qed.

Lemma expected_spikes_floor (rate duration : Q) :
  0 <= rate -> 0 < duration ->
  expected_spikes rate duration = Qfloor (rate * duration / 1000).
Proof.
  intros Hr Hd. apply py_int_floor. now apply expected_count_nonneg.
Qed.

Lemma expected_spikes_nonneg (rate duration : Q) :
  0 <= rate -> 0 < duration -> (0 <= expected_spikes rate duration)%Z.
Proof.
  intros Hr Hd. rewrite expected_spikes_floor by assumption.
  change 0%Z with (Qfloor 0). apply Qfloor_resp_le.
  now apply expected_count_nonneg.
Qed.

Lemma expected_spikes_below_one (rate duration : Q) :
  0 <= rate -> 0 < duration -> rate * duration < 1000 ->
  expected_spikes rate duration = 0%Z.
Proof.
  intros Hr Hd Hlt.
  pose proof (expected_spikes_nonneg rate duration Hr Hd) as Hge.
  rewrite expected_spikes_floor in * by assumption.
  assert (Hx : rate * duration / 1000 < 1).
  { apply Qlt_shift_div_r; [reflexivity |]. now rewrite Qmult_1_l. }
  pose proof (Qfloor_le (rate * duration / 1000)) as Hfl.
  assert (Hz : inject_Z (Qfloor (rate * duration / 1000)) < inject_Z 1).
  { eapply Qle_lt_trans; [exact Hfl | exact Hx]. }
  rewrite <- Zlt_Qlt in Hz. lia.
Qed.

(** ** The generator, step by step *)

Section GeneratorFacts.
Context {G : BitGenerator}.

Lemma np_random_uniform_total (low high : Q) (size : nat) (g : rng_state) :
  exists xs g',
    np_random_uniform low high size g = (Ok xs, g') /\ length xs = size.
Proof.
  revert g. induction size as [| size IH]; intros g.
  - exists [], g. split; reflexivity.
  - simpl. destruct (random_sample g) as [u g1].
    destruct (IH g1) as (xs & g2 & Hxs & Hlen).
    rewrite Hxs. eexists _, g2. split; [reflexivity |].
    simpl. now rewrite Hlen.
Qed.

(** The body of [generate_spike_train] with the monad unfolded. *)
Lemma generate_spike_train_steps (rate duration : Q) (seed : Z) (g : rng_state) :
  generate_spike_train rate duration seed g =
  if valid_seed seed then
    match np_random_poisson (expected_spikes rate duration) (seed_state seed) with
    | (Ok num_spikes, g1) =>
        match np_random_uniform 0 duration num_spikes g1 with
        | (Ok spike_times, g2) => (Ok (np_sort spike_times), g2)
        | (Raise e, g2) => (Raise e, g2)
        end
    | (Raise e, g1) => (Raise e, g1)
    end
  else (Raise ValueError, g).
Proof.
  unfold generate_spike_train, np_random_seed. simpl.
  destruct (valid_seed seed); reflexivity.
Qed.

Lemma np_random_poisson_raises (lam : Z) (g : rng_state) :
  is_raise (fst (np_random_poisson lam g))
  = ((lam <? 0)%Z || (POISSON_LAM_MAX <? lam)%Z).
Proof.
  unfold np_random_poisson.
  destruct (lam <? 0)%Z; [reflexivity |].
  destruct (POISSON_LAM_MAX <? lam)%Z; [reflexivity |].
  destruct (lam =? 0)%Z; [reflexivity |].
  destruct (poisson_draw lam g). reflexivity.
Qed.

Lemma np_random_poisson_raise_state (lam : Z) (g g' : rng_state) (e : exn) :
  np_random_poisson lam g = (Raise e, g') -> e = ValueError /\ g' = g.
Proof.
  unfold np_random_poisson.
  destruct (lam <? 0)%Z; [intros [= <- <-]; now split |].
  destruct (POISSON_LAM_MAX <? lam)%Z; [intros [= <- <-]; now split |].
  destruct (lam =? 0)%Z; [discriminate |].
  destruct (poisson_draw lam g). discriminate.
Qed.

(** A rejected mean is noticed only after the global generator has been
    reseeded. *)
Lemma generate_rejects_after_seeding (rate duration : Q) (seed : Z) (g : rng_state) :
  valid_seed seed = true ->
  (expected_spikes rate duration < 0)%Z ->
  generate_spike_train rate duration seed g = (Raise ValueError, seed_state seed).
Proof.
  intros Hseed Hneg. rewrite generate_spike_train_steps, Hseed.
  unfold np_random_poisson. apply Z.ltb_lt in Hneg. now rewrite Hneg.
Qed.
End GeneratorFacts.

(** ** Sorting *)

Lemma np_sort_sorted (a : list Q) : StronglySorted Qle (np_sort a).
Proof.
  assert (H : StronglySorted (fun x y => is_true (Qle_bool x y)) (np_sort a)).
  { apply QSort.StronglySorted_sort. intros x y z Hxy Hyz.
    unfold is_true in *. rewrite Qle_bool_iff in *.
    eapply Qle_trans; eassumption. }
  induction H as [| x l Hl IH Hx]; constructor.
  - exact IH.
  - eapply Forall_impl; [| exact Hx]. intros y Hy. now apply Qle_bool_iff.
Qed.

Lemma np_sort_length (a : list Q) : length (np_sort a) = length a.
Proof. symmetry. apply Permutation_length. apply QSort.Permuted_sort. Qed.

(** ** Claims about the generator *)

(** C2. The mean handed to the Poisson draw is not the expected count
    [rate * duration / 1000]: at 15 Hz over 100 ms the expected count is
    1.5, and line 41 hands over [int(1.5) = 1]. *)
Lemma poisson_mean_not_exact :
  0 <= 15 /\ 0 < 100
  /\ expected_spikes 15 100 = 1%Z
  /\ ~ inject_Z (expected_spikes 15 100) == 15 * 100 / 1000.
Proof.
  repeat split; discriminate.
Qed.

(** C8. The outcome of [generate_spike_train] (the timestamps, or the
    error) is a function of rate, duration and seed: it does not depend on
    the state the global generator was in before the call.  In particular
    a second call with the same arguments, made in the state the first one
    left, yields the same timestamps. *)
Theorem generate_deterministic {G : BitGenerator} (rate duration : Q) (seed : Z) :
  (forall g1 g2 : rng_state,
      fst (generate_spike_train rate duration seed g1)
      = fst (generate_spike_train rate duration seed g2))
  /\ (forall g : rng_state,
         fst (generate_spike_train rate duration seed
                (snd (generate_spike_train rate duration seed g)))
         = fst (generate_spike_train rate duration seed g)).
Proof.
  assert (H : forall g1 g2 : rng_state,
             fst (generate_spike_train rate duration seed g1)
             = fst (generate_spike_train rate duration seed g2)).
  { intros g1 g2. rewrite !generate_spike_train_steps.
    destruct (valid_seed seed); reflexivity. }
  split; [exact H |]. intros g. apply H.
Qed.

(** C9. Whatever the arguments, a train returned by the generator is
    sorted ascending.  For [rate >= 0], [duration > 0], an accepted seed
    and an expected count within the limit of the Poisson draw, the
    generator does return a train; it has as many timestamps as the count
    [n] that was drawn, and is empty when [n = 0]. *)
Theorem generate_sorted {G : BitGenerator} (rate duration : Q) (seed : Z)
    (g : rng_state) :
  (forall spike_times g',
      generate_spike_train rate duration seed g = (Ok spike_times, g') ->
      StronglySorted Qle spike_times)
  /\ (0 <= rate -> 0 < duration -> valid_seed seed = true ->
      (expected_spikes rate duration <= POISSON_LAM_MAX)%Z ->
      exists n g1 spike_times g2,
        np_random_poisson (expected_spikes rate duration) (seed_state seed)
        = (Ok n, g1)
        /\ generate_spike_train rate duration seed g = (Ok spike_times, g2)
        /\ StronglySorted Qle spike_times
        /\ length spike_times = n
        /\ (n = 0%nat -> spike_times = [])).
Proof.
  split.
  - intros spike_times g'. rewrite generate_spike_train_steps.
    destruct (valid_seed seed); [| discriminate].
    destruct (np_random_poisson _ _) as [[n | e] g1]; [| discriminate].
    destruct (np_random_uniform 0 duration n g1) as [[xs | e] g2];
      [| discriminate].
    intros [= <- _]. apply np_sort_sorted.
  - intros Hr Hd Hseed Hmax.
    pose proof (expected_spikes_nonneg rate duration Hr Hd) as Hge.
    pose proof (np_random_poisson_raises (expected_spikes rate duration)
                  (seed_state seed)) as Hp.
    replace (expected_spikes rate duration <? 0)%Z with false in Hp
      by (symmetry; apply Z.ltb_ge; exact Hge).
    replace (POISSON_LAM_MAX <? expected_spikes rate duration)%Z with false in Hp
      by (symmetry; apply Z.ltb_ge; exact Hmax).
    rewrite generate_spike_train_steps, Hseed.
    destruct (np_random_poisson _ _) as [[n | e] g1]; [| discriminate].
    destruct (np_random_uniform_total 0 duration n g1)
      as (xs & g2 & Hxs & Hlen).
    rewrite Hxs. exists n, g1, (np_sort xs), g2.
    split; [reflexivity |]. split; [reflexivity |].
    split; [apply np_sort_sorted |].
    assert (Hn : length (np_sort xs) = n)
      by (rewrite np_sort_length; exact Hlen).
    split; [exact Hn |].
    intros ->. now apply length_zero_iff_nil.
Qed.

Lemma generate_sorted_witness :
  exists spike_times,
    fst (generate_spike_train (G := Lcg.generator) 15 1000 42 7%Z)
    = Ok spike_times
    /\ StronglySorted Qle spike_times
    /\ length spike_times = 16%nat.
Proof.
  destruct (generate_sorted (G := Lcg.generator) 15 1000 42 7%Z)
    as [Hany Hvalid].
  destruct Hvalid as (n & g1 & ts & g2 & Hn & Hgen & _ & Hlen & _).
  - discriminate.
  - reflexivity.
  - reflexivity.
  - vm_compute. discriminate.
  - exists ts. rewrite Hgen. split; [reflexivity |].
    split; [exact (Hany ts g2 Hgen) |].
    rewrite Hlen. vm_compute in Hn. now injection Hn as <- _.
Defined.

(** C10, as stated, fails: it promises the empty train for every seed, but
    a seed outside [0 .. 2**32 - 1] is rejected by [np.random.seed] and no
    train is returned, also when the expected count is below one spike. *)
Lemma generate_rejects_invalid_seed :
  0 <= 0.5 /\ 0 < 1000 /\ 0.5 * 1000 < 1000
  /\ generate_spike_train (G := Lcg.generator) 0.5 1000 (-1) 7%Z
     = (Raise ValueError, 7%Z).
Proof.
  split; [discriminate |]. split; [reflexivity |]. split; reflexivity.
Qed.

Lemma below_1000_lt : below_1000 < 1000.
Proof. reflexivity. Qed.

(** C10, amended. For [rate >= 0] and [duration > 0] whose product is
    below 1000 as a double (at most [below_1000], the largest double below
    1000) the truncated expected count is 0 and the Poisson draw is 0
    without consulting the generator, whatever its state.  So every train
    the call returns is empty, and with a seed that [np.random.seed] accepts
    the call does return the empty train. *)
Theorem generate_empty_below_one_spike {G : BitGenerator} (rate duration : Q)
    (seed : Z) (g : rng_state) :
  0 <= rate -> 0 < duration -> rate * duration <= below_1000 ->
  expected_spikes rate duration = 0%Z
  /\ (forall g' : rng_state,
         np_random_poisson (expected_spikes rate duration) g' = (Ok 0%nat, g'))
  /\ (forall spike_times g',
         generate_spike_train rate duration seed g = (Ok spike_times, g') ->
         spike_times = [])
  /\ (valid_seed seed = true ->
      generate_spike_train rate duration seed g = (Ok [], seed_state seed)).
Proof.
  intros Hr Hd Hle.
  assert (Hlt : rate * duration < 1000)
    by (eapply Qle_lt_trans; [exact Hle | exact below_1000_lt]).
  pose proof (expected_spikes_below_one rate duration Hr Hd Hlt) as Hz.
  split; [exact Hz |]. rewrite generate_spike_train_steps, Hz.
  split; [reflexivity |]. split.
  - intros spike_times g'. destruct (valid_seed seed); [| discriminate].
    now intros [= <- _].
  - now intros ->.
Qed.

Lemma generate_empty_below_one_spike_witness :
  generate_spike_train (G := Lcg.generator) 0.5 1000 42 7%Z = (Ok [], 42%Z).
Proof.
  apply (generate_empty_below_one_spike (G := Lcg.generator) 0.5 1000 42 7%Z).
  - discriminate.
  - reflexivity.
  - discriminate.
  - reflexivity.
Defined.

(** A product of at most -1000 truncates to a negative expected count. *)
Lemma py_int_negative (x : Q) : x <= -1 -> (py_int x < 0)%Z.
Proof.
  destruct x as [n d]. unfold Qle, py_int. simpl. intros H.
  assert (Hn : (Z.pos d <= - n)%Z) by lia.
  replace n with (- - n)%Z by lia.
  rewrite Z.quot_opp_l by lia.
  rewrite Z.quot_div_nonneg by lia.
  assert (0 < - n / Z.pos d)%Z by (apply Z.div_str_pos; lia).
  lia.
Qed.

Lemma expected_spikes_negative (rate duration : Q) :
  rate * duration <= -1000 -> (expected_spikes rate duration < 0)%Z.
Proof.
  intros H. apply py_int_negative.
  apply Qle_shift_div_r; [reflexivity |]. exact H.
Qed.

(** ** Bin edges *)

Lemma Qceiling_unique (x : Q) (z : Z) :
  inject_Z (z - 1) < x -> x <= inject_Z z -> Qceiling x = z.
Proof.
  intros Hlo Hhi.
  pose proof (Qle_ceiling x) as H1. pose proof (Qceiling_lt x) as H2.
  assert (Ha : inject_Z (z - 1) < inject_Z (Qceiling x))
    by (eapply Qlt_le_trans; eassumption).
  assert (Hb : inject_Z (Qceiling x - 1) < inject_Z z)
    by (eapply Qlt_le_trans; eassumption).
  rewrite <- Zlt_Qlt in Ha, Hb. lia.
Qed.

Lemma Qceiling_succ (x : Q) : Qceiling (x + 1) = (Qceiling x + 1)%Z.
Proof.
  apply Qceiling_unique.
  - pose proof (Qceiling_lt x) as H.
    replace (Qceiling x + 1 - 1)%Z with (Qceiling x - 1 + 1)%Z by lia.
    rewrite inject_Z_plus. change (inject_Z 1) with 1. lra.
  - pose proof (Qle_ceiling x) as H.
    rewrite inject_Z_plus. change (inject_Z 1) with 1. lra.
Qed.

(** The number of edges of [np.arange(0, duration + bin_size, bin_size)]:
    one more than [ceil(duration / bin_size)]. *)
Lemma edge_count (duration bin_size : Q) :
  ~ bin_size == 0 ->
  arange_length 0 (duration + bin_size) bin_size
  = Z.to_nat (Qceiling (duration / bin_size) + 1).
Proof.
  intros Hb. unfold arange_length. rewrite <- Qceiling_succ.
  f_equal. apply Qceiling_comp. field. exact Hb.
Qed.

Lemma arange_values_length (start step : Q) (n : nat) :
  length (arange_values start step n) = n.
Proof. unfold arange_values. now rewrite length_map, length_seq. Qed.

Lemma arange_values_S (start step : Q) (n : nat) :
  arange_values start step (S n)
  = arange_values start step n ++ [start + inject_Z (Z.of_nat n) * step].
Proof. unfold arange_values. now rewrite seq_S, map_app. Qed.

Lemma arange_values_removelast (start step : Q) (n : nat) :
  removelast (arange_values start step n) = arange_values start step (pred n).
Proof.
  destruct n as [| n]; [reflexivity |].
  rewrite arange_values_S. apply removelast_last.
Qed.

Lemma arange_values_last (start step d : Q) (n : nat) :
  last (arange_values start step (S n)) d = start + inject_Z (Z.of_nat n) * step.
Proof. rewrite arange_values_S. apply last_last. Qed.

(** Consecutive pairs of a list given by index. *)
Lemma with_previous_indexed {A} (f : nat -> A) (k n : nat) :
  with_previous (map f (seq k n)) = map (fun i => (f (S i), f i)) (seq k (pred n)).
Proof.
  revert k. induction n as [| n IH]; intros k; [reflexivity |].
  destruct n as [| n]; [reflexivity |].
  change (seq k (S (S n))) with (k :: S k :: seq (S (S k)) n).
  change (map f (k :: S k :: seq (S (S k)) n))
    with (f k :: f (S k) :: map f (seq (S (S k)) n)).
  rewrite with_previous_cons.
  change (f (S k) :: map f (seq (S (S k)) n)) with (map f (seq (S k) (S n))).
  rewrite IH. reflexivity.
Qed.

Lemma increasing_edges_accepted (start step : Q) (n : nat) :
  0 < step -> decreases (arange_values start step n) = false.
Proof.
  intros Hstep. unfold decreases, arange_values.
  rewrite with_previous_indexed.
  apply not_true_is_false. intros H.
  apply existsb_exists in H. destruct H as ([x y] & Hin & Hlt).
  apply in_map_iff in Hin. destruct Hin as (i & [= <- <-] & _).
  cbn [fst snd] in Hlt. apply Qltb_lt in Hlt.
  change (Z.pos (Pos.of_succ_nat i)) with (Z.of_nat (S i)) in Hlt.
  rewrite Nat2Z.inj_succ, <- Z.add_1_r, inject_Z_plus in Hlt.
  change (inject_Z 1) with 1 in Hlt. nra.
Qed.

(** ** Counting into bins *)

Lemma np_diff_int_cons (x y : Z) (l : list Z) :
  np_diff_int (x :: y :: l) = (y - x)%Z :: np_diff_int (y :: l).
Proof. reflexivity. Qed.

Lemma last_nonempty {A} (x : A) (l : list A) (d d' : A) :
  last (x :: l) d = last (x :: l) d'.
Proof.
  revert x. induction l as [| y l IH]; intros x; [reflexivity |].
  change (last (x :: y :: l) d) with (last (y :: l) d).
  change (last (x :: y :: l) d') with (last (y :: l) d').
  apply IH.
Qed.

(** The counts are differences of a cumulative list, so their sum
    telescopes. *)
Lemma Zsum_np_diff_int (x : Z) (l : list Z) :
  Zsum (np_diff_int (x :: l)) = (last l x - x)%Z.
Proof.
  revert x. induction l as [| y l IH]; intros x.
  - simpl. lia.
  - rewrite np_diff_int_cons. cbn [Zsum fold_right].
    fold (Zsum (np_diff_int (y :: l))). rewrite IH.
    destruct l as [| z l]; [simpl; lia |].
    rewrite (last_nonempty z l y x).
    change (last (y :: z :: l) x) with (last (z :: l) x). lia.
Qed.

Lemma search_sorted_inclusive_length (a v : list Q) :
  length (search_sorted_inclusive a v) = length v.
Proof.
  unfold search_sorted_inclusive. rewrite length_app, !length_map.
  destruct v as [| x v]; [reflexivity |].
  rewrite (removelast_firstn_len (x :: v)), length_firstn. simpl. lia.
Qed.

Lemma last_cons {A} (y : A) (v : list A) (x : A) : last (y :: v) x = last v y.
Proof.
  destruct v as [| z v]; [reflexivity |].
  change (last (y :: z :: v) x) with (last (z :: v) x).
  apply last_nonempty.
Qed.

Lemma search_sorted_inclusive_two (a : list Q) (x y : Q) (v : list Q) :
  search_sorted_inclusive a (x :: y :: v)
  = count_lt a x :: search_sorted_inclusive a (y :: v).
Proof.
  unfold search_sorted_inclusive, last_slice.
  rewrite (last_cons y v x). reflexivity.
Qed.

Lemma search_sorted_inclusive_last (a : list Q) (x : Q) (v : list Q) (d : Z) :
  last (search_sorted_inclusive a (x :: v)) d = count_le a (last v x).
Proof. unfold search_sorted_inclusive. simpl last_slice. simpl map at 2. apply last_last. Qed.

Lemma count_lt_none (a : list Q) (v : Q) :
  (forall t, In t a -> v <= t) -> count_lt a v = 0%Z.
Proof.
  intros H. unfold count_lt. replace (filter (fun x => Qltb x v) a) with (@nil Q);
    [reflexivity |].
  induction a as [| t a IH]; [reflexivity |]. simpl.
  replace (Qltb t v) with false
    by (symmetry; apply Qltb_ge; apply H; now left).
  apply IH. intros t' Ht'. apply H. now right.
Qed.

Lemma count_le_all (a : list Q) (v : Q) :
  (forall t, In t a -> t <= v) -> count_le a v = Z.of_nat (length a).
Proof.
  intros H. unfold count_le. replace (filter (fun x => Qle_bool x v) a) with a;
    [reflexivity |].
  induction a as [| t a IH]; [reflexivity |]. simpl.
  replace (Qle_bool t v) with true
    by (symmetry; apply Qle_bool_iff; apply H; now left).
  f_equal. apply IH. intros t' Ht'. apply H. now right.
Qed.

(** With at least two edges that enclose every sample, each sample is
    counted in exactly one bin. *)
Lemma histogram_conserves (a : list Q) (x y : Q) (v : list Q) :
  decreases (x :: y :: v) = false ->
  (forall t, In t a -> x <= t <= last (y :: v) x) ->
  exists counts,
    np_histogram a (x :: y :: v) = Ok counts
    /\ Zsum counts = Z.of_nat (length a).
Proof.
  intros Hmono Hin. unfold np_histogram. rewrite Hmono.
  eexists. split; [reflexivity |].
  rewrite search_sorted_inclusive_two, Zsum_np_diff_int.
  rewrite search_sorted_inclusive_last.
  rewrite count_lt_none by (intros t Ht; apply Hin; exact Ht).
  rewrite count_le_all.
  - lia.
  - intros t Ht. destruct (Hin t Ht) as [_ Hle].
    rewrite last_cons in Hle. exact Hle.
Qed.

Lemma search_sorted_inclusive_empty (v : list Q) :
  search_sorted_inclusive [] v = repeat 0%Z (length v).
Proof.
  induction v as [| x [| y v] IH]; try reflexivity.
  rewrite search_sorted_inclusive_two, IH. reflexivity.
Qed.

Lemma np_diff_int_zeros (n : nat) :
  np_diff_int (repeat 0%Z n) = repeat 0%Z (pred n).
Proof.
  induction n as [| [| n] IH]; try reflexivity.
  change (repeat 0%Z (S (S n))) with (0%Z :: 0%Z :: repeat 0%Z n).
  rewrite np_diff_int_cons. change (0%Z :: repeat 0%Z n) with (repeat 0%Z (S n)).
  rewrite IH. reflexivity.
Qed.

Lemma Zsum_zeros (n : nat) : Zsum (repeat 0%Z n) = 0%Z.
Proof. induction n as [| n IH]; [reflexivity |]. simpl. exact IH. Qed.

(** Without samples every bin counts 0. *)
Lemma histogram_empty (edges : list Q) :
  decreases edges = false ->
  np_histogram [] edges = Ok (repeat 0%Z (pred (length edges))).
Proof.
  intros Hmono. unfold np_histogram. rewrite Hmono.
  now rewrite search_sorted_inclusive_empty, np_diff_int_zeros.
Qed.

(** ** The estimator, step by step *)

Lemma bin_counts_steps (spike_times : list Q) (bin_size duration : Q) :
  ~ bin_size == 0 ->
  bin_counts spike_times bin_size duration
  = np_histogram spike_times
      (arange_values 0 bin_size
         (Z.to_nat (Qceiling (duration / bin_size) + 1))).
Proof.
  intros Hb. unfold bin_counts, np_arange.
  replace (Qeq_bool bin_size 0) with false
    by (symmetry; apply not_true_is_false; intros H; apply Hb;
        now apply Qeq_bool_eq).
  simpl. now rewrite edge_count.
Qed.

Lemma calculate_firing_rate_steps (spike_times : list Q) (bin_size : Q)
    (duration : option Q) :
  ~ bin_size == 0 ->
  calculate_firing_rate spike_times bin_size duration
  = match bin_counts spike_times bin_size
            (effective_duration spike_times duration) with
    | Ok counts =>
        Ok (map (bin_center bin_size)
              (arange_values 0 bin_size
                 (Z.to_nat (Qceiling
                    (effective_duration spike_times duration / bin_size)))),
            map (count_rate bin_size) counts)
    | Raise e => Raise e
    end.
Proof.
  intros Hb. rewrite bin_counts_steps by exact Hb.
  unfold calculate_firing_rate, np_arange.
  replace (Qeq_bool bin_size 0) with false
    by (symmetry; apply not_true_is_false; intros H; apply Hb;
        now apply Qeq_bool_eq).
  simpl. rewrite edge_count by exact Hb.
  destruct (np_histogram _ _) as [counts | e]; [| reflexivity].
  rewrite arange_values_removelast. do 4 f_equal.
  set (c := Qceiling _). lia.
Qed.

Lemma positive_quotient_ceiling (d b : Q) :
  0 < d / b -> (1 <= Qceiling (d / b))%Z.
Proof.
  intros H. pose proof (Qle_ceiling (d / b)) as Hc.
  assert (Hz : inject_Z 0 < inject_Z (Qceiling (d / b)))
    by (eapply Qlt_le_trans; [exact H | exact Hc]).
  rewrite <- Zlt_Qlt in Hz. lia.
Qed.

Lemma nonpositive_quotient_ceiling (d b : Q) :
  d / b <= 0 -> (Qceiling (d / b) <= 0)%Z.
Proof.
  intros H. change 0%Z with (Qceiling 0). now apply Qceiling_resp_le.
Qed.

(** ** Claims about the rate estimator *)

(** C6, as stated, fails: a train with its one spike at time 0 lies in the
    window [[0, 0]], but a window of length 0 has a single edge and no bin,
    so no spike is counted. *)
Lemma zero_window_drops_spike :
  (forall t, In t [0] -> 0 <= t <= 0) /\ 0 < 50
  /\ bin_counts [0] 50 0 = Ok []
  /\ calculate_firing_rate [0] 50 (Some 0) = Ok ([], [])
  /\ calculate_firing_rate [0] 50 None = Ok ([], [])
  /\ Zsum [] <> Z.of_nat (length [0]).
Proof.
  split; [| split; [| split; [| split; [| split]]]].
  - intros t [<- | []]. split; discriminate.
  - reflexivity.
  - reflexivity.
  - reflexivity.
  - reflexivity.
  - discriminate.
Qed.

(** C6, amended. Whenever the bin edges that line 80 hands to the histogram
    are at least two, do not decrease and enclose the train (the first edge
    is not above and the last edge is not below any timestamp), every spike
    is counted exactly once: the estimator returns one rate per bin and the
    per-bin counts add up to the number of spikes, a spike at the right edge
    of the last bin included.  Timestamps in [[0, duration]] alone do not
    ensure that the edges enclose them. *)
Theorem rate_conservation (spike_times : list Q) (bin_size : Q)
    (bins : list Q) :
  (2 <= length bins)%nat ->
  decreases bins = false ->
  (forall t, In t spike_times -> hd 0 bins <= t <= last bins 0) ->
  exists counts centers rates,
    np_histogram spike_times bins = Ok counts
    /\ rates_from_bins spike_times bin_size bins = Ok (centers, rates)
    /\ length rates = length counts
    /\ length counts = pred (length bins)
    /\ Zsum counts = Z.of_nat (length spike_times).
Proof.
  intros Hlen Hmono Hin.
  destruct bins as [| x [| y v]]; try (simpl in Hlen; lia).
  rewrite (last_cons x (y :: v) 0) in Hin. cbn [hd] in Hin.
  destruct (histogram_conserves spike_times x y v Hmono Hin)
    as (counts & Hcounts & Hsum).
  unfold rates_from_bins. rewrite Hcounts. cbn [bind result_monad ret].
  eexists _, _, _. split; [reflexivity |]. split; [reflexivity |].
  split; [apply length_map |]. split; [| exact Hsum].
  unfold np_histogram in Hcounts. rewrite Hmono in Hcounts.
  injection Hcounts as <-.
  now rewrite np_diff_int_length, search_sorted_inclusive_length.
Qed.

Lemma rate_conservation_witness :
  exists counts centers rates,
    np_histogram [10; 20; 120; 999; 1000] [0; 250; 500; 750; 1000] = Ok counts
    /\ rates_from_bins [10; 20; 120; 999; 1000] 250 [0; 250; 500; 750; 1000]
       = Ok (centers, rates)
    /\ length rates = length counts
    /\ length counts = 4%nat
    /\ Zsum counts = 5%Z.
Proof.
  apply (rate_conservation [10; 20; 120; 999; 1000] 250 [0; 250; 500; 750; 1000]).
  - simpl. lia.
  - reflexivity.
  - intros t Ht. simpl in Ht.
    repeat (destruct Ht as [<- | Ht]; [split; discriminate |]).
    destruct Ht.
Defined.

(** C7. The window in force is the duration argument when there is one,
    the last timestamp of the train when there is none, and 1000 ms when
    there is none and the train is empty; the bin edges are built from that
    window.  For the empty train without a duration and [bin_size > 0] the
    estimator returns without error, with one rate per bin center and every
    rate equal to 0. *)
Theorem default_duration_policy (bin_size : Q) :
  (forall (t : Q) (rest : list Q),
      effective_duration (t :: rest) None = last (t :: rest) 0)
  /\ effective_duration [] None = 1000
  /\ (forall (spike_times : list Q) (d : Q),
         effective_duration spike_times (Some d) = d)
  /\ (forall (spike_times : list Q) (duration : option Q),
         calculate_firing_rate spike_times bin_size duration
         = (bins <- np_arange 0
                      (effective_duration spike_times duration + bin_size)
                      bin_size ;;
            rates_from_bins spike_times bin_size bins))
  /\ (0 < bin_size ->
      exists centers rates,
        calculate_firing_rate [] bin_size None = Ok (centers, rates)
        /\ length centers = length rates
        /\ Forall (fun r => r == 0) rates).
Proof.
  split; [| split; [| split; [| split]]].
  - intros t rest. cbn [effective_duration default_duration].
    now rewrite (last_cons t rest 0).
  - reflexivity.
  - reflexivity.
  - reflexivity.
  - intros Hb. assert (Hb0 : ~ bin_size == 0) by lra.
    rewrite calculate_firing_rate_steps, bin_counts_steps by exact Hb0.
    rewrite histogram_empty by now apply increasing_edges_accepted.
    eexists _, _. split; [reflexivity |]. split.
    + rewrite !length_map, !arange_values_length, repeat_length.
      set (c := Qceiling _). lia.
    + apply Forall_forall. intros r Hr. apply in_map_iff in Hr.
      destruct Hr as (c & <- & Hc). apply repeat_spec in Hc. subst c.
      unfold count_rate. field. lra.
Qed.

Lemma default_duration_policy_witness :
  exists centers rates,
    calculate_firing_rate [] 50 None = Ok (centers, rates)
    /\ length centers = length rates
    /\ Forall (fun r => r == 0) rates.
Proof.
  apply (proj2 (proj2 (proj2 (proj2 (default_duration_policy 50))))).
  reflexivity.
Defined.

(** ** Claim about the rejection of invalid parameters *)

(** C1, as stated, fails: a negative rate, a duration of 0 and a negative
    bin size are all accepted, and a result is returned. *)
Lemma invalid_parameters_accepted :
  (-0.5 < 0
   /\ generate_spike_train (G := Lcg.generator) (-0.5) 1000 42 7%Z
      = (Ok [], 42%Z))
  /\ (0 <= 0
      /\ generate_spike_train (G := Lcg.generator) 10 0 42 7%Z = (Ok [], 42%Z))
  /\ (-50 <= 0
      /\ calculate_firing_rate [10; 20] (-50) (Some 1000) = Ok ([], [])).
Proof.
  split; [| split]; (split; [| reflexivity]); [reflexivity | |]; discriminate.
Qed.

(** C1, amended. Neither operation checks its parameters; an invalid
    parameter is rejected only where a call that uses it fails.  The
    generator surfaces an error and returns no train whenever
    [rate * duration <= -1000] (the truncated expected count is then
    negative), and with an accepted seed only after the global generator has
    been reseeded.  The estimator surfaces an error and returns no series
    whenever the bin size is 0. *)
Theorem parameter_rejection :
  (forall (G : BitGenerator) (rate duration : Q) (seed : Z) (g : rng_state),
      rate * duration <= -1000 ->
      is_raise (fst (generate_spike_train rate duration seed g)) = true
      /\ (valid_seed seed = true ->
          snd (generate_spike_train rate duration seed g) = seed_state seed))
  /\ (forall (spike_times : list Q) (bin_size : Q) (duration : option Q),
         bin_size == 0 ->
         is_raise (calculate_firing_rate spike_times bin_size duration) = true).
Proof.
  split.
  - intros G rate duration seed g Hneg.
    apply expected_spikes_negative in Hneg.
    destruct (valid_seed seed) eqn:Hseed.
    + rewrite (generate_rejects_after_seeding rate duration seed g Hseed Hneg).
      split; reflexivity.
    + rewrite generate_spike_train_steps, Hseed.
      split; [reflexivity | discriminate].
  - intros spike_times bin_size duration Hz.
    unfold calculate_firing_rate, np_arange.
    apply Qeq_bool_iff in Hz. now rewrite Hz.
Qed.

Lemma parameter_rejection_witness :
  is_raise (fst (generate_spike_train (G := Lcg.generator) (-10) 1000 42 7%Z))
  = true
  /\ snd (generate_spike_train (G := Lcg.generator) (-10) 1000 42 7%Z) = 42%Z
  /\ is_raise (calculate_firing_rate [10; 20] 0 (Some 1000)) = true.
Proof.
  destruct parameter_rejection as [Hgen Hest].
  destruct (Hgen Lcg.generator (-10) 1000 42%Z 7%Z) as [Hraise Hstate].
  - discriminate.
  - split; [exact Hraise |]. split.
    + apply Hstate. reflexivity.
    + apply (Hest [10; 20] 0 (Some 1000)). reflexivity.
Defined.

(** * Further properties *)

(** ** The counts, bin by bin *)

Lemma last_slice_snoc {A} (l : list A) (x : A) : last_slice (l ++ [x]) = [x].
Proof.
  destruct l as [| y l]; [reflexivity |].
  change (last_slice ((y :: l) ++ [x])) with [last (l ++ [x]) y].
  now rewrite last_last.
Qed.

Lemma search_sorted_inclusive_indexed (a : list Q) (f : nat -> Q) (k : nat) :
  search_sorted_inclusive a (map f (seq 0 (S k)))
  = map (cumulative a f k) (seq 0 (S k)).
Proof.
  rewrite seq_S, !map_app. simpl map at 2 4. cbn [Nat.add].
  unfold search_sorted_inclusive.
  rewrite removelast_last, last_slice_snoc. f_equal.
  - rewrite map_map. apply map_ext_in. intros i Hi. apply in_seq in Hi.
    unfold cumulative. destruct (Nat.ltb_spec i k); [reflexivity | lia].
  - simpl. unfold cumulative. now rewrite Nat.ltb_irrefl.
Qed.

Lemma np_diff_int_indexed (h : nat -> Z) (k : nat) :
  np_diff_int (map h (seq 0 (S k)))
  = map (fun i => (h (S i) - h i)%Z) (seq 0 k).
Proof.
  unfold np_diff_int. rewrite with_previous_indexed, map_map. reflexivity.
Qed.

(** For a positive bin size the estimator never raises; its counts are the
    differences of the cumulative counts at the edges [0, b, 2b, ...]. *)
Lemma bin_counts_positive (a : list Q) (bin_size d : Q) :
  0 < bin_size ->
  bin_counts a bin_size d
  = Ok (estimator_counts a bin_size (bin_number bin_size d)).
Proof.
  intros Hb. assert (Hb0 : ~ bin_size == 0) by lra.
  rewrite bin_counts_steps by exact Hb0.
  unfold np_histogram. rewrite increasing_edges_accepted by exact Hb.
  f_equal. unfold bin_number, estimator_counts.
  set (c := Qceiling (d / bin_size)).
  destruct (Z_lt_le_dec c 0) as [Hneg | Hpos].
  - replace (Z.to_nat (c + 1)) with 0%nat by lia.
    replace (Z.to_nat c) with 0%nat by lia. reflexivity.
  - replace (Z.to_nat (c + 1)) with (S (Z.to_nat c)) by lia.
    unfold arange_values.
    change (fun i : nat => 0 + inject_Z (Z.of_nat i) * bin_size)
      with (estimator_edge bin_size).
    now rewrite search_sorted_inclusive_indexed, np_diff_int_indexed.
Qed.

Lemma calculate_firing_rate_positive (a : list Q) (bin_size : Q)
    (duration : option Q) :
  0 < bin_size ->
  let k := bin_number bin_size (effective_duration a duration) in
  calculate_firing_rate a bin_size duration
  = Ok (map (bin_center bin_size) (arange_values 0 bin_size k),
        map (count_rate bin_size) (estimator_counts a bin_size k)).
Proof.
  intros Hb k. assert (Hb0 : ~ bin_size == 0) by lra.
  rewrite calculate_firing_rate_steps by exact Hb0.
  now rewrite bin_counts_positive by exact Hb.
Qed.

Lemma estimator_counts_length (a : list Q) (bin_size : Q) (k : nat) :
  length (estimator_counts a bin_size k) = k.
Proof. unfold estimator_counts. now rewrite length_map, length_seq. Qed.

(** Comparisons against equal bounds agree. *)
Lemma count_lt_compat (a : list Q) (u v : Q) : u == v -> count_lt a u = count_lt a v.
Proof.
  intros E. unfold count_lt. do 2 f_equal. apply filter_ext. intros x.
  unfold Qltb. now rewrite E.
Qed.

Lemma count_le_compat (a : list Q) (u v : Q) : u == v -> count_le a u = count_le a v.
Proof.
  intros E. unfold count_le. do 2 f_equal. apply filter_ext. intros x.
  now rewrite E.
Qed.

Lemma estimator_edge_bin_edge (bin_size : Q) (i : nat) :
  estimator_edge bin_size i == bin_edge bin_size i.
Proof. unfold estimator_edge, bin_edge. ring. Qed.

Lemma bin_edge_succ (bin_size : Q) (i : nat) :
  bin_edge bin_size (S i) == bin_edge bin_size i + bin_size.
Proof.
  unfold bin_edge. rewrite Nat2Z.inj_succ, <- Z.add_1_r, inject_Z_plus.
  change (inject_Z 1) with 1. ring.
Qed.

(** Differences of cumulative counts count the samples in between. *)
Lemma count_lt_difference (a : list Q) (lo hi : Q) :
  lo <= hi ->
  (count_lt a hi - count_lt a lo)%Z = count_half_open a lo hi.
Proof.
  intros Hle. unfold count_lt, count_half_open.
  induction a as [| t a IH]; [reflexivity |].
  cbn [filter].
  destruct (Qltb t hi) eqn:Hhi; destruct (Qltb t lo) eqn:Hlo;
    destruct (Qle_bool lo t) eqn:Hlo'; cbn [andb length];
    try (rewrite ?Nat2Z.inj_succ in *; lia).
  - apply Qltb_lt in Hlo. apply Qle_bool_iff in Hlo'. lra.
  - apply Qltb_ge in Hlo.
    assert (Hc : Qle_bool lo t = true) by now apply Qle_bool_iff.
    congruence.
  - apply Qltb_ge in Hhi. apply Qltb_lt in Hlo. lra.
  - apply Qltb_ge in Hhi. apply Qltb_lt in Hlo. lra.
Qed.

Lemma count_le_difference (a : list Q) (lo hi : Q) :
  lo <= hi ->
  (count_le a hi - count_lt a lo)%Z = count_closed a lo hi.
Proof.
  intros Hle. unfold count_le, count_lt, count_closed.
  induction a as [| t a IH]; [reflexivity |].
  cbn [filter].
  destruct (Qle_bool t hi) eqn:Hhi; destruct (Qltb t lo) eqn:Hlo;
    destruct (Qle_bool lo t) eqn:Hlo'; cbn [andb length];
    try (rewrite ?Nat2Z.inj_succ in *; lia).
  - apply Qltb_lt in Hlo. apply Qle_bool_iff in Hlo'. lra.
  - apply Qltb_ge in Hlo.
    assert (Hc : Qle_bool lo t = true) by now apply Qle_bool_iff.
    congruence.
  - apply Qltb_lt in Hlo.
    assert (Hc : Qle_bool t hi = true) by (apply Qle_bool_iff; lra).
    congruence.
  - apply Qltb_lt in Hlo.
    assert (Hc : Qle_bool t hi = true) by (apply Qle_bool_iff; lra).
    congruence.
Qed.

Lemma nth_map_seq {A} (f : nat -> A) (k i : nat) (d : A) :
  (i < k)%nat -> nth i (map f (seq 0 k)) d = f i.
Proof.
  intros Hi. rewrite (nth_indep _ d (f 0%nat)) by now rewrite length_map, length_seq.
  rewrite map_nth, seq_nth by exact Hi. reflexivity.
Qed.

Lemma count_closed_compat (a : list Q) (lo lo' hi hi' : Q) :
  lo == lo' -> hi == hi' -> count_closed a lo hi = count_closed a lo' hi'.
Proof.
  intros El Eh. unfold count_closed. do 2 f_equal. apply filter_ext. intros x.
  now rewrite El, Eh.
Qed.

Lemma count_closed_all (a : list Q) (lo hi : Q) :
  (forall t, In t a -> lo <= t <= hi) ->
  count_closed a lo hi = Z.of_nat (length a).
Proof.
  intros H. unfold count_closed.
  replace (filter (fun t => Qle_bool lo t && Qle_bool t hi) a) with a;
    [reflexivity |].
  induction a as [| t a IH]; [reflexivity |]. cbn [filter].
  destruct (H t (or_introl eq_refl)) as [Hlo Hhi].
  apply Qle_bool_iff in Hlo, Hhi. rewrite Hlo, Hhi. cbn [andb].
  f_equal. apply IH. intros t' Ht'. apply H. now right.
Qed.

Lemma bin_edge_increasing (bin_size : Q) (i : nat) :
  0 < bin_size -> bin_edge bin_size i <= bin_edge bin_size (S i).
Proof. intros Hb. rewrite bin_edge_succ. lra. Qed.

(** The count of bin [i]: the samples from its left edge up to its right
    edge, which is excluded except in the last bin. *)
Lemma estimator_counts_nth (a : list Q) (bin_size : Q) (k i : nat) :
  0 < bin_size -> (i < k)%nat ->
  nth i (estimator_counts a bin_size k) 0%Z
  = if (S i =? k)%nat
    then count_closed a (bin_edge bin_size i) (bin_edge bin_size (S i))
    else count_half_open a (bin_edge bin_size i) (bin_edge bin_size (S i)).
Proof.
  intros Hb Hi. unfold estimator_counts. rewrite nth_map_seq by exact Hi.
  unfold cumulative.
  replace (i <? k)%nat with true by (symmetry; apply Nat.ltb_lt; exact Hi).
  rewrite (count_lt_compat a _ _ (estimator_edge_bin_edge bin_size i)).
  destruct (Nat.eqb_spec (S i) k) as [E | E].
  - replace (S i <? k)%nat with false by (symmetry; apply Nat.ltb_ge; lia).
    rewrite (count_le_compat a _ _ (estimator_edge_bin_edge bin_size (S i))).
    apply count_le_difference. now apply bin_edge_increasing.
  - replace (S i <? k)%nat with true by (symmetry; apply Nat.ltb_lt; lia).
    rewrite (count_lt_compat a _ _ (estimator_edge_bin_edge bin_size (S i))).
    apply count_lt_difference. now apply bin_edge_increasing.
Qed.

Lemma Zsum_differences (h : nat -> Z) (s k : nat) :
  Zsum (map (fun i => (h (S i) - h i)%Z) (seq s k)) = (h (s + k)%nat - h s)%Z.
Proof.
  revert s. induction k as [| k IH]; intros s.
  - simpl. rewrite Nat.add_0_r. lia.
  - cbn [seq map Zsum fold_right].
    change (fold_right Z.add 0%Z ?l) with (Zsum l).
    rewrite IH. replace (S s + k)%nat with (s + S k)%nat by lia. lia.
Qed.

(** For a positive window there is at least one bin, and the last edge is
    the first multiple of the bin size that is not below the window. *)
Lemma window_covered (bin_size d : Q) :
  0 < bin_size -> 0 < d ->
  (1 <= bin_number bin_size d)%nat
  /\ d <= bin_edge bin_size (bin_number bin_size d)
  /\ bin_edge bin_size (bin_number bin_size d) < d + bin_size.
Proof.
  intros Hb Hd. unfold bin_number, bin_edge.
  assert (Hq : d / bin_size * bin_size == d) by (field; lra).
  assert (Hpos : 0 < d / bin_size) by nra.
  pose proof (positive_quotient_ceiling _ _ Hpos) as Hc.
  pose proof (Qle_ceiling (d / bin_size)) as Hle.
  pose proof (Qceiling_lt (d / bin_size)) as Hlt.
  set (c := Qceiling (d / bin_size)) in *.
  rewrite Z2Nat.id by lia.
  unfold Z.sub in Hlt. rewrite inject_Z_plus in Hlt.
  change (inject_Z (-1)) with (-1) in Hlt.
  assert (H1 : d / bin_size * bin_size <= inject_Z c * bin_size)
    by (apply Qmult_le_compat_r; [exact Hle | apply Qlt_le_weak; exact Hb]).
  assert (H2 : (inject_Z c + -1) * bin_size < d / bin_size * bin_size)
    by (apply Qmult_lt_compat_r; [exact Hb | exact Hlt]).
  split; [| split]; [lia | lra | lra].
Qed.

Lemma count_half_open_nonneg (a : list Q) (lo hi : Q) :
  (0 <= count_half_open a lo hi)%Z.
Proof. unfold count_half_open. apply Nat2Z.is_nonneg. Qed.

Lemma count_closed_nonneg (a : list Q) (lo hi : Q) :
  (0 <= count_closed a lo hi)%Z.
Proof. unfold count_closed. apply Nat2Z.is_nonneg. Qed.

Lemma estimator_counts_nonneg (a : list Q) (bin_size : Q) (k : nat) :
  0 < bin_size -> Forall (fun c => (0 <= c)%Z) (estimator_counts a bin_size k).
Proof.
  intros Hb. apply Forall_forall. intros c Hc.
  destruct (In_nth _ _ 0%Z Hc) as (i & Hi & <-).
  rewrite estimator_counts_length in Hi.
  rewrite estimator_counts_nth by assumption.
  destruct (S i =? k)%nat;
    [apply count_closed_nonneg | apply count_half_open_nonneg].
Qed.

Lemma count_rate_nonneg (bin_size : Q) (c : Z) :
  0 < bin_size -> (0 <= c)%Z -> 0 <= count_rate bin_size c.
Proof.
  intros Hb Hc. unfold count_rate.
  assert (Hc' : 0 <= inject_Z c)
    by (change 0 with (inject_Z 0); now rewrite <- Zle_Qle).
  assert (Hw : 0 < bin_size / 1000) by (apply Qlt_shift_div_l; lra).
  apply Qle_shift_div_l; [exact Hw |]. rewrite Qmult_0_l. exact Hc'.
Qed.

(** ** Properties of the rate estimator *)

(** X2. With a positive bin size no rate is negative. *)
Theorem firing_rates_nonneg (spike_times : list Q) (bin_size : Q)
    (duration : option Q) :
  0 < bin_size ->
  exists centers rates,
    calculate_firing_rate spike_times bin_size duration = Ok (centers, rates)
    /\ Forall (fun r => 0 <= r) rates.
Proof.
  intros Hb. rewrite calculate_firing_rate_positive by exact Hb.
  eexists _, _. split; [reflexivity |].
  apply Forall_forall. intros r Hr. apply in_map_iff in Hr.
  destruct Hr as (c & <- & Hc). apply count_rate_nonneg; [exact Hb |].
  pose proof (estimator_counts_nonneg spike_times bin_size
                (bin_number bin_size (effective_duration spike_times duration))
                Hb) as Hall.
  rewrite Forall_forall in Hall. now apply Hall.
Qed.

Lemma firing_rates_nonneg_witness :
  exists centers rates,
    calculate_firing_rate [-5; 20; 120; 2000] 250 (Some 1000)
    = Ok (centers, rates)
    /\ Forall (fun r => 0 <= r) rates.
Proof.
  apply (firing_rates_nonneg [-5; 20; 120; 2000] 250 (Some 1000)).
  reflexivity.
Defined.

(** X1. With a positive bin size the estimator returns for every train and
    every window, with one rate per bin center.  There is no bin when the
    window in force is not positive, and at least one when it is not
    shorter than the bin size. *)
Theorem firing_rate_shape (spike_times : list Q) (bin_size : Q)
    (duration : option Q) :
  0 < bin_size ->
  let d := effective_duration spike_times duration in
  exists centers rates,
    calculate_firing_rate spike_times bin_size duration = Ok (centers, rates)
    /\ length centers = length rates
    /\ (d <= 0 -> centers = [] /\ rates = [])
    /\ (bin_size <= d -> centers <> [] /\ rates <> []).
Proof.
  intros Hb d.
  rewrite calculate_firing_rate_positive by exact Hb. fold d.
  set (k := bin_number bin_size d).
  eexists _, _. split; [reflexivity |].
  split; [now rewrite !length_map, arange_values_length, estimator_counts_length |].
  split.
  - intros Hd.
    assert (Hk : k = 0%nat).
    { unfold k, bin_number.
      assert (Hq : d / bin_size <= 0)
        by (apply Qle_shift_div_r; [exact Hb | lra]).
      pose proof (nonpositive_quotient_ceiling _ _ Hq). lia. }
    rewrite Hk. split; reflexivity.
  - intros Hd.
    assert (Hpos : 0 < d) by lra.
    destruct (window_covered bin_size d Hb Hpos) as (Hk & _). fold k in Hk.
    split; intros E; apply (f_equal (@length Q)) in E;
      rewrite length_map in E;
      rewrite ?arange_values_length, ?estimator_counts_length in E;
      simpl in E; lia.
Qed.

Lemma firing_rate_shape_witness :
  exists centers rates,
    calculate_firing_rate [10; 20; 120; 999; 1000] 50 (Some 1000)
    = Ok (centers, rates)
    /\ length centers = length rates
    /\ centers <> [].
Proof.
  destruct (firing_rate_shape [10; 20; 120; 999; 1000] 50 (Some 1000))
    as (centers & rates & Hcall & Hlen & _ & Hsome).
  - reflexivity.
  - exists centers, rates. split; [exact Hcall |]. split; [exact Hlen |].
    apply Hsome. discriminate.
Defined.

(** *** Counts for arbitrary bin edges *)

Lemma list_indexed (l : list Q) :
  l = map (fun i => nth i l 0) (seq 0 (length l)).
Proof.
  apply (nth_ext _ _ 0 0).
  - now rewrite length_map, length_seq.
  - intros n Hn. now rewrite nth_map_seq.
Qed.

Lemma histogram_indexed (a : list Q) (f : nat -> Q) (k : nat) :
  decreases (map f (seq 0 (S k))) = false ->
  np_histogram a (map f (seq 0 (S k)))
  = Ok (map (fun i => (cumulative a f k (S i) - cumulative a f k i)%Z)
          (seq 0 k)).
Proof.
  intros H. unfold np_histogram. rewrite H.
  now rewrite search_sorted_inclusive_indexed, np_diff_int_indexed.
Qed.

Lemma nondecreasing_indexed (f : nat -> Q) (k : nat) :
  decreases (map f (seq 0 (S k))) = false ->
  forall i, (i < k)%nat -> f i <= f (S i).
Proof.
  unfold decreases. rewrite with_previous_indexed. cbn [pred].
  intros H i Hi. apply Qltb_ge.
  destruct (Qltb (f (S i)) (f i)) eqn:E; [| reflexivity].
  rewrite <- H. symmetry. apply existsb_exists.
  exists (f (S i), f i). split; [| exact E].
  apply in_map_iff. exists i. split; [reflexivity |]. apply in_seq. lia.
Qed.

Lemma cumulative_differences_nth (a : list Q) (f : nat -> Q) (k i : nat) :
  (forall j, (j < k)%nat -> f j <= f (S j)) -> (i < k)%nat ->
  nth i (map (fun i => (cumulative a f k (S i) - cumulative a f k i)%Z)
           (seq 0 k)) 0%Z
  = if (S i =? k)%nat
    then count_closed a (f i) (f (S i))
    else count_half_open a (f i) (f (S i)).
Proof.
  intros Hmono Hi. rewrite nth_map_seq by exact Hi. unfold cumulative.
  replace (i <? k)%nat with true by (symmetry; apply Nat.ltb_lt; exact Hi).
  destruct (Nat.eqb_spec (S i) k) as [E | E].
  - replace (S i <? k)%nat with false by (symmetry; apply Nat.ltb_ge; lia).
    apply count_le_difference. now apply Hmono.
  - replace (S i <? k)%nat with true by (symmetry; apply Nat.ltb_lt; lia).
    apply count_lt_difference. now apply Hmono.
Qed.

Lemma nondecreasing_first_last (x : Q) (l : list Q) :
  decreases (x :: l) = false -> x <= last l x.
Proof.
  revert x. induction l as [| y l IH]; intros x H; [apply Qle_refl |].
  unfold decreases in H. rewrite with_previous_cons in H.
  cbn [existsb fst snd] in H. apply orb_false_iff in H. destruct H as [Hxy Hl].
  apply Qltb_ge in Hxy. rewrite last_cons.
  apply Qle_trans with y; [exact Hxy |]. now apply IH.
Qed.

Lemma rates_from_bins_counts (spike_times : list Q) (bin_size : Q)
    (bins : list Q) (counts : list Z) :
  np_histogram spike_times bins = Ok counts ->
  exists centers rates,
    rates_from_bins spike_times bin_size bins = Ok (centers, rates)
    /\ length rates = length counts.
Proof.
  intros H. unfold rates_from_bins. rewrite H. cbn [bind result_monad ret].
  eexists _, _. split; [reflexivity | apply length_map].
Qed.

(** X3. Whatever non-decreasing bin edges line 80 produced, the estimator
    returns one rate per bin, and bin [i] counts the spikes from edge [i] up
    to edge [i + 1], which is excluded except in the last bin. *)
Theorem bin_count_meaning (spike_times : list Q) (bin_size : Q)
    (bins : list Q) :
  decreases bins = false ->
  let k := pred (length bins) in
  exists counts centers rates,
    np_histogram spike_times bins = Ok counts
    /\ rates_from_bins spike_times bin_size bins = Ok (centers, rates)
    /\ length rates = k
    /\ length counts = k
    /\ forall i, (i < k)%nat ->
         nth i counts 0%Z
         = if (S i =? k)%nat
           then count_closed spike_times (nth i bins 0) (nth (S i) bins 0)
           else count_half_open spike_times (nth i bins 0) (nth (S i) bins 0).
Proof.
  intros Hmono k.
  assert (Hcounts : exists counts,
             np_histogram spike_times bins = Ok counts
             /\ length counts = k
             /\ forall i, (i < k)%nat ->
                  nth i counts 0%Z
                  = if (S i =? k)%nat
                    then count_closed spike_times (nth i bins 0) (nth (S i) bins 0)
                    else count_half_open spike_times
                           (nth i bins 0) (nth (S i) bins 0)).
  { destruct (length bins) as [| n] eqn:Hlen.
    - apply length_zero_iff_nil in Hlen. subst bins.
      exists []. split; [reflexivity |]. split; [reflexivity |].
      intros i Hi. unfold k in Hi. simpl in Hi. lia.
    - subst k. cbn [pred].
      pose proof (list_indexed bins) as E. rewrite Hlen in E.
      set (f := fun i => nth i bins 0) in E.
      pose proof (histogram_indexed spike_times f n) as Hh.
      pose proof (nondecreasing_indexed f n) as Hnd.
      rewrite <- E in Hh, Hnd.
      eexists. split; [exact (Hh Hmono) |].
      split; [now rewrite length_map, length_seq |].
      intros i Hi.
      exact (cumulative_differences_nth spike_times f n i (Hnd Hmono) Hi). }
  destruct Hcounts as (counts & Hcall & Hlen & Hnth).
  destruct (rates_from_bins_counts spike_times bin_size bins counts Hcall)
    as (centers & rates & Hrates & Hrl).
  exists counts, centers, rates.
  split; [exact Hcall |]. split; [exact Hrates |].
  split; [now rewrite Hrl |]. split; [exact Hlen | exact Hnth].
Qed.

Lemma bin_count_meaning_witness :
  exists counts,
    np_histogram [10; 250; 750; 1000] [0; 250; 500; 750; 1000] = Ok counts
    /\ nth 1 counts 0%Z = 1%Z
    /\ nth 3 counts 0%Z = 2%Z.
Proof.
  destruct (bin_count_meaning [10; 250; 750; 1000] 250 [0; 250; 500; 750; 1000])
    as (counts & _ & _ & Hcall & _ & _ & _ & Hnth).
  - reflexivity.
  - exists counts. split; [exact Hcall |]. split.
    + rewrite (Hnth 1%nat) by (simpl; lia). reflexivity.
    + rewrite (Hnth 3%nat) by (simpl; lia). reflexivity.
Defined.

(** X4. Whatever bin edges line 80 produced, at least two and not
    decreasing, the counts add up to the number of spikes between the first
    and the last edge: spikes before the first or after the last edge are
    left out without an error. *)
Theorem spikes_in_window_counted (spike_times : list Q) (bin_size : Q)
    (bins : list Q) :
  (2 <= length bins)%nat ->
  decreases bins = false ->
  exists counts centers rates,
    np_histogram spike_times bins = Ok counts
    /\ rates_from_bins spike_times bin_size bins = Ok (centers, rates)
    /\ length rates = length counts
    /\ Zsum counts = count_closed spike_times (hd 0 bins) (last bins 0).
Proof.
  intros Hlen Hmono.
  destruct bins as [| x [| y v]]; try (simpl in Hlen; lia).
  assert (Hcall : np_histogram spike_times (x :: y :: v)
                  = Ok (np_diff_int (search_sorted_inclusive spike_times
                                       (x :: y :: v))))
    by (unfold np_histogram; now rewrite Hmono).
  destruct (rates_from_bins_counts spike_times bin_size _ _ Hcall)
    as (centers & rates & Hrates & Hrl).
  eexists _, centers, rates.
  split; [exact Hcall |]. split; [exact Hrates |]. split; [exact Hrl |].
  rewrite search_sorted_inclusive_two, Zsum_np_diff_int.
  rewrite search_sorted_inclusive_last.
  rewrite (last_cons x (y :: v) 0). cbn [hd].
  pose proof (nondecreasing_first_last x (y :: v) Hmono) as Hfl.
  rewrite (last_cons y v x) in *.
  now apply count_le_difference.
Qed.

Lemma spikes_in_window_counted_witness :
  exists counts,
    np_histogram [-5; 20; 120; 2000] [0; 250; 500; 750; 1000] = Ok counts
    /\ Zsum counts = 2%Z.
Proof.
  destruct (spikes_in_window_counted [-5; 20; 120; 2000] 250
              [0; 250; 500; 750; 1000])
    as (counts & _ & _ & Hcall & _ & _ & Hsum).
  - simpl. lia.
  - reflexivity.
  - exists counts. split; [exact Hcall |]. rewrite Hsum. reflexivity.
Defined.

(** ** Intervals of a train *)

Lemma np_diff_cons (x y : Q) (l : list Q) :
  np_diff (x :: y :: l) = (y - x) :: np_diff (y :: l).
Proof. reflexivity. Qed.

Lemma len_positive (x : Q) (l : list Q) : 0 < len (x :: l).
Proof.
  unfold len. change 0 with (inject_Z 0). rewrite <- Zlt_Qlt.
  cbn [length]. lia.
Qed.

Section IntervalFacts.
Variable np_sqrt : Q -> Q.

Lemma statistics_of_two (x y : Q) (l : list Q) :
  calculate_isi_statistics np_sqrt (x :: y :: l)
  = let isis := np_diff (x :: y :: l) in
    {| mean_isi := np_mean isis;
       std_isi := np_std np_sqrt isis;
       cv := if Qltb 0 (np_mean isis)
             then np_true_divide (np_std np_sqrt isis) (np_mean isis)
             else Finite 0;
       num_intervals := length isis |}.
Proof. reflexivity. Qed.

End IntervalFacts.

Lemma Qsum_nonneg (a : list Q) : Forall (fun d => 0 <= d) a -> 0 <= Qsum a.
Proof.
  induction 1 as [| d a Hd _ IH]; [apply Qle_refl |].
  cbn [Qsum fold_right]. change (fold_right Qplus 0 a) with (Qsum a). lra.
Qed.

Lemma np_mean_nonneg (a : list Q) : Forall (fun d => 0 <= d) a -> 0 <= np_mean a.
Proof.
  intros H. unfold np_mean, Qdiv. apply Qmult_le_0_compat.
  - now apply Qsum_nonneg.
  - apply Qinv_le_0_compat. unfold len. change 0 with (inject_Z 0).
    rewrite <- Zle_Qle. lia.
Qed.

Lemma np_diff_sorted (a : list Q) :
  StronglySorted Qle a -> Forall (fun d => 0 <= d) (np_diff a).
Proof.
  induction a as [| x [| y l] IH]; intros Hs; [constructor | constructor |].
  rewrite np_diff_cons. constructor.
  - inversion Hs as [| ? ? _ Hall]; subst.
    rewrite Forall_forall in Hall.
    assert (Hxy : x <= y) by (apply Hall; now left). lra.
  - apply IH. now inversion Hs.
Qed.

(** X10. In a sorted train no interval is negative, and neither is the
    mean ISI. *)
Theorem sorted_train_intervals (np_sqrt : Q -> Q) (spike_times : list Q) :
  StronglySorted Qle spike_times ->
  Forall (fun d => 0 <= d) (np_diff spike_times)
  /\ 0 <= mean_isi (calculate_isi_statistics np_sqrt spike_times).
Proof.
  intros Hs. pose proof (np_diff_sorted spike_times Hs) as Hd.
  split; [exact Hd |].
  unfold calculate_isi_statistics.
  destruct (length (np_diff spike_times) =? 0)%nat; cbn [mean_isi].
  - apply Qle_refl.
  - now apply np_mean_nonneg.
Qed.

Lemma sorted_train_intervals_witness :
  Forall (fun d => 0 <= d) (np_diff [10; 20; 20; 45])
  /\ 0 <= mean_isi (calculate_isi_statistics floor_sqrt [10; 20; 20; 45]).
Proof.
  apply (sorted_train_intervals floor_sqrt [10; 20; 20; 45]).
  repeat constructor; discriminate.
Defined.

(** ** Timestamps of the generator *)

Section WindowFacts.
Context {G : BitGenerator}.

Lemma np_random_uniform_range (low high : Q) (size : nat) (g g' : rng_state)
    (xs : list Q) :
  unit_samples -> low < high ->
  np_random_uniform low high size g = (Ok xs, g') ->
  forall x, In x xs -> low <= x < high.
Proof.
  intros Hunit Hlh. revert g g' xs.
  induction size as [| size IH]; intros g g' xs.
  - simpl. intros [= <- _] x [].
  - simpl. pose proof (Hunit g) as Hu.
    destruct (random_sample g) as [u g1]. simpl in Hu.
    destruct (np_random_uniform low high size g1) as [[ys | e] g2] eqn:E;
      [| discriminate].
    intros [= <- _] x [<- | Hx].
    + split; nra.
    + eapply IH; eassumption.
Qed.

Lemma generate_returns_sorted_draws (rate duration : Q) (seed : Z)
    (g g' : rng_state) (spike_times : list Q) :
  generate_spike_train rate duration seed g = (Ok spike_times, g') ->
  exists n g1 xs,
    np_random_poisson (expected_spikes rate duration) (seed_state seed)
    = (Ok n, g1)
    /\ np_random_uniform 0 duration n g1 = (Ok xs, g')
    /\ spike_times = np_sort xs.
Proof.
  rewrite generate_spike_train_steps.
  destruct (valid_seed seed); [| discriminate].
  destruct (np_random_poisson _ _) as [[n | e] g1]; [| discriminate].
  destruct (np_random_uniform 0 duration n g1) as [[xs | e] g2] eqn:E;
    [| discriminate].
  intros [= <- <-]. now exists n, g1, xs.
Qed.

Lemma generate_in_window_aux (rate duration : Q) (seed : Z)
    (g g' : rng_state) (spike_times : list Q) :
  unit_samples -> 0 < duration ->
  generate_spike_train rate duration seed g = (Ok spike_times, g') ->
  forall t, In t spike_times -> 0 <= t < duration.
Proof.
  intros Hunit Hd Hgen t Ht.
  destruct (generate_returns_sorted_draws _ _ _ _ _ _ Hgen)
    as (n & g1 & xs & _ & Hxs & ->).
  eapply np_random_uniform_range; [exact Hunit | exact Hd | exact Hxs |].
  eapply Permutation_in; [| exact Ht].
  apply Permutation_sym. apply QSort.Permuted_sort.
Qed.
End WindowFacts.

Lemma lcg_unit_samples : unit_samples (G := Lcg.generator).
Proof.
  intros g. cbn [random_sample Lcg.generator]. unfold Lcg.sample. cbn [fst].
  pose proof (Z.mod_pos_bound (Lcg.next g) 1000 eq_refl) as Hb.
  unfold Qle, Qlt. simpl. lia.
Qed.

(** X12. When the uniform variates lie in [[0, 1)] and [duration > 0],
    every timestamp of a generated train lies in [[0, duration)]. *)
Theorem generate_in_window {G : BitGenerator} (rate duration : Q) (seed : Z)
    (g g' : rng_state) (spike_times : list Q) :
  unit_samples -> 0 < duration ->
  generate_spike_train rate duration seed g = (Ok spike_times, g') ->
  forall t, In t spike_times -> 0 <= t < duration.
Proof.
  intros Hunit Hd Hgen t Ht.
  destruct (generate_returns_sorted_draws _ _ _ _ _ _ Hgen)
    as (n & g1 & xs & _ & Hxs & ->).
  assert (Hdrawn : In t xs).
  { eapply Permutation_in; [| exact Ht].
    apply Permutation_sym. apply QSort.Permuted_sort. }
  exact (np_random_uniform_range 0 duration n g1 g' xs Hunit Hd Hxs t Hdrawn).
Qed.

Lemma generate_in_window_witness :
  exists spike_times,
    fst (generate_spike_train (G := Lcg.generator) 15 1000 42 7%Z)
    = Ok spike_times
    /\ forall t, In t spike_times -> 0 <= t < 1000.
Proof.
  destruct (generate_spike_train (G := Lcg.generator) 15 1000 42 7%Z)
    as [[ts | e] g'] eqn:E.
  - exists ts. split; [reflexivity |].
    apply (generate_in_window (G := Lcg.generator) 15 1000 42 7%Z g' ts).
    + exact lcg_unit_samples.
    + reflexivity.
    + exact E.
  - vm_compute in E. discriminate.
Defined.

(** X14. Generator and analyzer together: for every generated train the
    analyzer reports one interval less than there are spikes (none for the
    empty train), no interval is negative and the mean ISI is not
    negative. *)
Theorem generated_train_statistics {G : BitGenerator} (np_sqrt : Q -> Q)
    (rate duration : Q) (seed : Z) (g g' : rng_state) (spike_times : list Q) :
  generate_spike_train rate duration seed g = (Ok spike_times, g') ->
  let stats := calculate_isi_statistics np_sqrt spike_times in
  num_intervals stats = pred (length spike_times)
  /\ Forall (fun d => 0 <= d) (np_diff spike_times)
  /\ 0 <= mean_isi stats.
Proof.
  intros Hgen stats.
  destruct (generate_returns_sorted_draws _ _ _ _ _ _ Hgen)
    as (n & g1 & xs & _ & _ & ->).
  pose proof (np_diff_sorted _ (np_sort_sorted xs)) as Hd.
  subst stats. unfold calculate_isi_statistics.
  destruct (Nat.eqb_spec (length (np_diff (np_sort xs))) 0) as [E | E];
    cbn [num_intervals mean_isi].
  - rewrite np_diff_length in E. repeat split.
    + lia.
    + exact Hd.
    + apply Qle_refl.
  - repeat split.
    + apply np_diff_length.
    + exact Hd.
    + now apply np_mean_nonneg.
Qed.

Lemma generated_train_statistics_witness :
  exists spike_times,
    fst (generate_spike_train (G := Lcg.generator) 15 1000 42 7%Z)
    = Ok spike_times
    /\ num_intervals (calculate_isi_statistics floor_sqrt spike_times)
       = pred (length spike_times)
    /\ 0 <= mean_isi (calculate_isi_statistics floor_sqrt spike_times).
Proof.
  destruct (generate_spike_train (G := Lcg.generator) 15 1000 42 7%Z)
    as [[ts | e] g'] eqn:E.
  - destruct (generated_train_statistics (G := Lcg.generator) floor_sqrt
                15 1000 42 7%Z g' ts E) as (Hn & _ & Hm).
    exists ts. split; [reflexivity |]. split; [exact Hn | exact Hm].
  - vm_compute in E. discriminate.
Defined.

(** ** The summary report *)

Section SummaryFacts.
Variable np_sqrt : Q -> Q.

Lemma statistics_without_interval (spike_times : list Q) :
  (length spike_times <= 1)%nat ->
  calculate_isi_statistics np_sqrt spike_times = zero_statistics.
Proof.
  intros Hlen. apply no_interval_iff in Hlen.
  unfold calculate_isi_statistics. now rewrite Hlen.
Qed.

(** X15. The summary of a train of at most one spike shows the all-zero
    statistics and the regular pattern.  For the empty train it shows a
    duration of 1 second, no spike and a mean rate of 0; nothing is
    raised. *)
Theorem summary_few_spikes :
  (forall spike_times : list Q,
      (length spike_times <= 1)%nat ->
      let s := print_summary_statistics np_sqrt spike_times in
      summary_num_spikes s = length spike_times
      /\ summary_stats s = zero_statistics
      /\ summary_pattern s = "Regular/rhythmic firing"%string)
  /\ summary_duration (print_summary_statistics np_sqrt []) = 1
  /\ summary_mean_rate (print_summary_statistics np_sqrt []) = Finite 0.
Proof.
  split; [| split; reflexivity].
  intros spike_times Hlen s. subst s. unfold print_summary_statistics.
  cbn [summary_num_spikes summary_stats summary_pattern].
  rewrite statistics_without_interval by exact Hlen.
  repeat split.
Qed.

End SummaryFacts.

Lemma summary_few_spikes_witness :
  summary_pattern (print_summary_statistics floor_sqrt [5.0])
  = "Regular/rhythmic firing"%string.
Proof.
  apply (proj1 (summary_few_spikes floor_sqrt) [5.0]). simpl. lia.
Defined.

(** ** The figure *)

Section PlotFacts.
Variable np_sqrt : Q -> Q.

Lemma py_max_ge_r (a b : Q) : b <= py_max a b.
Proof.
  unfold py_max. destruct (Qltb a b) eqn:H; [apply Qle_refl |].
  now apply Qltb_ge.
Qed.

Lemma plot_of_nonempty (t : Q) (rest : list Q) :
  let k := bin_number 50 (last rest t) in
  plot_spike_analysis np_sqrt (t :: rest)
  = Plotted
      {| raster_times := t :: rest;
         raster_xlim := py_max (last rest t) 1000;
         rate_curve := (map (bin_center 50) (arange_values 0 50 k),
                        map (count_rate 50) (estimator_counts (t :: rest) 50 k));
         rate_mean_line :=
           np_mean_float (map (count_rate 50) (estimator_counts (t :: rest) 50 k));
         isi_histogram :=
           if (0 <? length (np_diff (t :: rest)))%nat
           then Some (np_diff (t :: rest), np_mean (np_diff (t :: rest)))
           else None;
         stats_box := calculate_isi_statistics np_sqrt (t :: rest) |}.
Proof.
  intros k. unfold plot_spike_analysis.
  rewrite calculate_firing_rate_positive by reflexivity.
  reflexivity.
Qed.

(** X17. The figure function raises [IndexError] exactly on the empty
    train, before the estimator and the analyzer are called.  For every other
    train it completes: the raster shows the train on an axis that reaches
    at least 1000 ms and the last timestamp, the rate curve has as many
    rates as bin centers, and the text box holds the statistics of the
    analyzer. *)
Theorem plot_raises_iff_empty (spike_times : list Q) :
  match plot_spike_analysis np_sqrt spike_times with
  | PlotRaise e => spike_times = [] /\ e = IndexError
  | Plotted p =>
      spike_times <> []
      /\ raster_times p = spike_times
      /\ 1000 <= raster_xlim p
      /\ last spike_times 0 <= raster_xlim p
      /\ length (fst (rate_curve p)) = length (snd (rate_curve p))
      /\ stats_box p = calculate_isi_statistics np_sqrt spike_times
  end.
Proof.
  destruct spike_times as [| t rest]; [now split |].
  rewrite plot_of_nonempty.
  cbn [raster_times raster_xlim rate_curve stats_box fst snd].
  split; [discriminate |]. split; [reflexivity |].
  split; [apply py_max_ge_r |]. split.
  - rewrite last_cons. unfold py_max.
    destruct (Qltb (last rest t) 1000) eqn:H; [| apply Qle_refl].
    apply Qltb_lt in H. now apply Qlt_le_weak.
  - split; [| reflexivity].
    now rewrite !length_map, arange_values_length, estimator_counts_length.
Qed.

(** X18. The ISI panel agrees with the text box: the histogram is drawn
    exactly when the train has at least two spikes; it is then drawn over
    the intervals of the train, as many as the statistics report, and its
    mean line is at the [mean_isi] of the statistics. *)
Theorem plot_histogram_matches_stats (t : Q) (rest : list Q) :
  exists p,
    plot_spike_analysis np_sqrt (t :: rest) = Plotted p
    /\ match isi_histogram p with
       | None => rest = [] /\ num_intervals (stats_box p) = 0%nat
       | Some (isis, line) =>
           rest <> []
           /\ isis = np_diff (t :: rest)
           /\ length isis = num_intervals (stats_box p)
           /\ length isis = length rest
           /\ line = mean_isi (stats_box p)
       end.
Proof.
  rewrite plot_of_nonempty. eexists. split; [reflexivity |].
  cbn [isi_histogram stats_box].
  destruct rest as [| y l]; [split; reflexivity |].
  rewrite np_diff_cons. cbn [length Nat.ltb Nat.leb].
  rewrite <- np_diff_cons. rewrite statistics_of_two.
  cbn [num_intervals mean_isi].
  split; [discriminate |]. repeat split. now rewrite np_diff_length.
Qed.

(** X19. The mean line of the rate panel: for a non-empty train whose last
    timestamp is not positive the rate curve is empty and the mean line is
    NaN, without an error; when the last timestamp is at least one bin width
    (50 ms) the curve is not empty and the mean line is a finite number. *)
Theorem plot_rate_mean_line (t : Q) (rest : list Q) :
  exists p,
    plot_spike_analysis np_sqrt (t :: rest) = Plotted p
    /\ (last rest t <= 0 ->
        rate_curve p = ([], []) /\ rate_mean_line p = NaN)
    /\ (50 <= last rest t ->
        snd (rate_curve p) <> [] /\ exists m, rate_mean_line p = Finite m).
Proof.
  rewrite plot_of_nonempty. eexists. split; [reflexivity |].
  cbn [rate_curve rate_mean_line snd].
  set (k := bin_number 50 (last rest t)).
  split.
  - intros Hneg.
    assert (Hk : k = 0%nat).
    { unfold k, bin_number.
      assert (Hq : last rest t / 50 <= 0)
        by (apply Qle_shift_div_r; [reflexivity | lra]).
      pose proof (nonpositive_quotient_ceiling _ _ Hq). lia. }
    rewrite Hk. split; reflexivity.
  - intros Hwide.
    assert (Hpos : 0 < last rest t) by lra.
    destruct (window_covered 50 (last rest t) eq_refl Hpos) as (Hk & _).
    fold k in Hk.
    pose proof (estimator_counts_length (t :: rest) 50 k) as Hlen.
    destruct (estimator_counts (t :: rest) 50 k) as [| c counts];
      [simpl in Hlen; lia |].
    split; [discriminate |].
    cbn [map]. unfold np_mean_float, np_true_divide.
    pose proof (len_positive (count_rate 50 c) (map (count_rate 50) counts)) as Hl.
    replace (Qeq_bool (len (count_rate 50 c :: map (count_rate 50) counts)) 0)
      with false
      by (symmetry; apply not_true_is_false; intros Hz;
          apply Qeq_bool_eq in Hz; lra).
    eexists. reflexivity.
Qed.
End PlotFacts.

Lemma plot_rate_mean_line_witness :
  (exists p m,
      plot_spike_analysis floor_sqrt [100; 500] = Plotted p
      /\ rate_mean_line p = Finite m)
  /\ (exists p,
         plot_spike_analysis floor_sqrt [0] = Plotted p
         /\ rate_mean_line p = NaN).
Proof.
  split.
  - destruct (plot_rate_mean_line floor_sqrt 100 [500])
      as (p & Hp & _ & Hwide).
    destruct Hwide as (_ & m & Hm); [discriminate |].
    exists p, m. split; [exact Hp | exact Hm].
  - destruct (plot_rate_mean_line floor_sqrt 0 []) as (p & Hp & Hneg & _).
    destruct Hneg as (_ & Hnan); [discriminate |].
    exists p. split; [exact Hp | exact Hnan].
Defined.

(** X20. Generator, summary and figure together: for [rate >= 0] and
    [duration > 0] whose product is below 1000 as a double (at most
    [below_1000]) every generated train is empty, so the summary is printed
    (no spike, mean rate 0, regular pattern) and the figure function then
    raises [IndexError]. *)
Theorem low_rate_figure_fails {G : BitGenerator} (np_sqrt : Q -> Q)
    (rate duration : Q) (seed : Z) (g g' : rng_state) (spike_times : list Q) :
  0 <= rate -> 0 < duration -> rate * duration <= below_1000 ->
  generate_spike_train rate duration seed g = (Ok spike_times, g') ->
  let s := print_summary_statistics np_sqrt spike_times in
  summary_num_spikes s = 0%nat
  /\ summary_mean_rate s = Finite 0
  /\ summary_pattern s = "Regular/rhythmic firing"%string
  /\ plot_spike_analysis np_sqrt spike_times = PlotRaise IndexError.
Proof.
  intros Hr Hd Hle Hgen.
  assert (Hlt : rate * duration < 1000)
    by (eapply Qle_lt_trans; [exact Hle | exact below_1000_lt]).
  assert (Hempty : spike_times = []).
  { rewrite generate_spike_train_steps in Hgen.
    rewrite (expected_spikes_below_one rate duration Hr Hd Hlt) in Hgen.
    destruct (valid_seed seed); [| discriminate].
    simpl in Hgen. now injection Hgen as <- _. }
  subst spike_times. repeat split.
Qed.

Lemma low_rate_figure_fails_witness :
  plot_spike_analysis floor_sqrt [] = PlotRaise IndexError.
Proof.
  apply (low_rate_figure_fails (G := Lcg.generator) floor_sqrt
           0.5 1000 42 7%Z 42%Z []).
  - discriminate.
  - reflexivity.
  - discriminate.
  - reflexivity.
Defined.
